(** * Vector payment channels: the browser node's RPC surface and LibERC20

    A shallow embedding of
    - [modules/browser-node/src/index.ts] (class [BrowserNode]), and
    - [modules/contracts/src.sol/lib/LibERC20.sol] (library [LibERC20]),
    together with models of the channel state machine, the router's
    forwarding engine and the engine's event surface, which the repository
    keeps in other packages. *)

From Stdlib Require Import ZArith String List Bool Lia DecimalString.
From stdpp Require Import base option list strings gmap.
Import ListNotations.
Set Warnings "-register-all".
Local Open Scope string_scope.
Local Open Scope Z_scope.

(** ** JavaScript values, thrown values and settled promises *)

Module JS.

(** The run-time values that cross the node's surface: request
    parameters, engine responses and response payloads.  Objects keep
    their fields in insertion order. *)
Inductive JsValue : Type :=
| JUndefined
| JNull
| JBool (b : bool)
| JNum (n : Z)
| JStr (s : string)
| JArr (items : list JsValue)
| JObj (fields : list (string * JsValue)).

(** [NodeError.reasons]: the reason this file uses. *)
Inductive NodeErrorReason : Type :=
| MultinodeProhibitted.

(** What a [throw] (or a rejected promise) carries. *)
Inductive Thrown : Type :=
| ErrorObj (message : string)                             (* new Error(message) *)
| TypeErrorObj (message : string)                         (* raised by the run time *)
| NodeErrorObj (reason : NodeErrorReason) (context : JsValue) (* new NodeError(reason, context) *)
| EngineRejection (e : JsValue).                          (* whatever the engine rejects with *)

(** A settled promise; also the completion of a synchronous expression
    inside an [async] body, where a [throw] rejects the promise. *)
Inductive Settled (A : Type) : Type :=
| Resolved (a : A)
| Rejected (e : Thrown).
Arguments Resolved {A} a.
Arguments Rejected {A} e.

Definition nullish (v : JsValue) : bool :=
  match v with
  | JUndefined | JNull => true
  | _ => false
  end.

Fixpoint lookup_field (k : string) (fields : list (string * JsValue)) : JsValue :=
  match fields with
  | [] => JUndefined
  | (k', v) :: rest => if String.eqb k k' then v else lookup_field k rest
  end.

(** [v.k]: a [TypeError] on [undefined] and [null], the field of an
    object, [undefined] where the field is absent.  None of the names this
    file reads is a built-in property of an array, string, number or
    boolean, so those answer [undefined]. *)
Definition get (v : JsValue) (k : string) : Settled JsValue :=
  match v with
  | JUndefined | JNull => Rejected (TypeErrorObj ("Cannot read property " ++ k))
  | JObj fields => Resolved (lookup_field k fields)
  | _ => Resolved JUndefined
  end.

(** [v?.k]: optional chaining short-circuits on [undefined] and [null]. *)
Definition get_opt (v : JsValue) (k : string) : Settled JsValue :=
  if nullish v then Resolved JUndefined else get v k.

Definition bind_settled {A B} (c : Settled A) (k : A -> Settled B) : Settled B :=
  match c with
  | Resolved a => k a
  | Rejected e => Rejected e
  end.

(** [items.map(f)] where the callback may throw: left to right, the
    first throw aborts the call. *)
Fixpoint map_settled (f : JsValue -> Settled JsValue) (items : list JsValue)
  : Settled (list JsValue) :=
  match items with
  | [] => Resolved []
  | x :: rest =>
      bind_settled (f x) (fun y =>
      bind_settled (map_settled f rest) (fun ys => Resolved (y :: ys)))
  end.

(** [v.map(f)]: only arrays carry a [map] method. *)
Definition array_map (v : JsValue) (f : JsValue -> Settled JsValue) : Settled JsValue :=
  match v with
  | JArr items => bind_settled (map_settled f items) (fun ys => Resolved (JArr ys))
  | JUndefined | JNull => Rejected (TypeErrorObj "Cannot read property map")
  | _ => Rejected (TypeErrorObj "map is not a function")
  end.

End JS.
Export JS.

(** [Result] of vector-types, by the two calls that build one:
    [Result.ok(value)] and [Result.fail(error)].  What the object so built
    holds is [BrowserNode.built]. *)
Module Result.
Inductive t (T E : Type) : Type :=
| ok (value : T)
| fail (error : E).
Arguments ok {T E} value.
Arguments fail {T E} error.
End Result.

(** ** The browser node ([modules/browser-node/src/index.ts]) *)

Module BrowserNode.

(** [ChannelRpcMethods]: the methods this file passes to
    [constructRpcRequest]. *)
Inductive ChannelRpcMethod : Type :=
| chan_getChannelStateByParticipants
| chan_getChannelState
| chan_getChannelStates
| chan_getTransferStateByRoutingId
| chan_getTransferStatesByRoutingId
| chan_getTransferState
| chan_getActiveTransfers
| chan_requestSetup
| chan_deposit
| chan_requestCollateral
| chan_createTransfer
| chan_resolveTransfer
| chan_withdraw
| chan_dispute
| chan_defund
| chan_disputeTransfer
| chan_defundTransfer.

(** The collaborators of [BrowserNode]: the [IVectorEngine] it holds and
    [constructRpcRequest] of vector-utils.  Neither is defined in the
    browser node's package, so both are parameters: the engine is any deterministic state
    machine whose [request] settles either way, [constructRpcRequest] any
    total function of the method and the params. *)
Class IVectorEngine : Type := {
  EngineState : Type;
  RpcRequest : Type;
  constructRpcRequest : ChannelRpcMethod -> JsValue -> RpcRequest;
  engine_publicIdentifier : EngineState -> JsValue;
  engine_signerAddress : EngineState -> JsValue;
  engine_request : RpcRequest -> EngineState -> Settled JsValue * EngineState;
  (* waitFor(event, timeout, filter?) *)
  engine_waitFor :
    string -> Z -> option (JsValue -> bool) -> EngineState -> Settled JsValue * EngineState;
}.

Section Node.
Context `{Engine : IVectorEngine}.

(** What an operation runs against: the engine behind [this.engine]
    and, for the record, every request handed to it so far. *)
Record World : Type := mkWorld {
  engine : EngineState;
  sent : list RpcRequest;
}.

(** An [async] method body: it settles, and may have used the engine. *)
Definition Async (A : Type) : Type := World -> Settled A * World.

Definition ret {A} (a : A) : Async A := fun w => (Resolved a, w).
Definition throw {A} (e : Thrown) : Async A := fun w => (Rejected e, w).
Definition bind {A B} (m : Async A) (k : A -> Async B) : Async B :=
  fun w => match m w with
           | (Resolved a, w') => k a w'
           | (Rejected e, w') => (Rejected e, w')
           end.
(** A synchronous expression evaluated inside the body. *)
Definition eval {A} (c : Settled A) : Async A := fun w => (c, w).
(** [try { body } catch (e) { handler(e) }] *)
Definition try_catch {A} (body : Async A) (handler : Thrown -> Async A) : Async A :=
  fun w => match body w with
           | (Resolved a, w') => (Resolved a, w')
           | (Rejected e, w') => handler e w'
           end.

(** [await this.engine.request(rpc)] *)
Definition request (rpc : RpcRequest) : Async JsValue :=
  fun w => let (r, s') := engine_request rpc (engine w) in
           (r, {| engine := s'; sent := sent w ++ [rpc] |}).

(** [get publicIdentifier()] and [get signerAddress()] *)
Definition publicIdentifier (w : World) : JsValue := engine_publicIdentifier (engine w).
Definition signerAddress (w : World) : JsValue := engine_signerAddress (engine w).
(** [this.publicIdentifier] read inside a method body. *)
Definition this_publicIdentifier : Async JsValue :=
  fun w => (Resolved (publicIdentifier w), w).

End Node.

Declare Scope async_scope.
Delimit Scope async_scope with async.
Notation "x <- m ;; k" := (bind m (fun x => k))
  (at level 100, m at next level, right associativity) : async_scope.
Local Open Scope async_scope.

Section Methods.
Context `{Engine : IVectorEngine}.

(** The settled value of every method below but the event ones. *)
Definition NodeResult : Type := Result.t JsValue Thrown.

(** [Promise.resolve(Result.fail(new NodeError(MultinodeProhibitted, { params })))] *)
Definition createNode (params : JsValue) : Async NodeResult :=
  ret (Result.fail (NodeErrorObj MultinodeProhibitted (JObj [("params", params)]))).

(** The object literal is built, with its reads of [params], before the
    [try] is entered. *)
Definition getStateChannelByParticipants (params : JsValue) : Async NodeResult :=
  alice <- eval (get params "counterparty") ;;
  bob <- this_publicIdentifier ;;
  chainId <- eval (get params "chainId") ;;
  let rpc := constructRpcRequest chan_getChannelStateByParticipants
               (JObj [("alice", alice); ("bob", bob); ("chainId", chainId)]) in
  try_catch
    (res <- request rpc ;;
     ret (Result.ok res))
    (fun e => ret (Result.fail e)).

Definition getStateChannel (params : JsValue) : Async NodeResult :=
  let rpc := constructRpcRequest chan_getChannelState params in
  try_catch
    (res <- request rpc ;;
     ret (Result.ok res))
    (fun e => ret (Result.fail e)).

(** [constructRpcRequest(chan_getChannelStates, undefined)], then
    [res.map(chan => chan.channelAddress)]. *)
Definition getStateChannels : Async NodeResult :=
  let rpc := constructRpcRequest chan_getChannelStates JUndefined in
  try_catch
    (res <- request rpc ;;
     addresses <- eval (array_map res (fun chan => get chan "channelAddress")) ;;
     ret (Result.ok addresses))
    (fun e => ret (Result.fail e)).

Definition getTransferByRoutingId (params : JsValue) : Async NodeResult :=
  let rpc := constructRpcRequest chan_getTransferStateByRoutingId params in
  try_catch
    (res <- request rpc ;;
     ret (Result.ok res))
    (fun e => ret (Result.fail e)).

Definition getTransfersByRoutingId (params : JsValue) : Async NodeResult :=
  let rpc := constructRpcRequest chan_getTransferStatesByRoutingId params in
  try_catch
    (res <- request rpc ;;
     ret (Result.ok res))
    (fun e => ret (Result.fail e)).

Definition getTransfer (params : JsValue) : Async NodeResult :=
  let rpc := constructRpcRequest chan_getTransferState params in
  try_catch
    (res <- request rpc ;;
     ret (Result.ok res))
    (fun e => ret (Result.fail e)).

Definition getActiveTransfers (params : JsValue) : Async NodeResult :=
  let rpc := constructRpcRequest chan_getActiveTransfers params in
  try_catch
    (res <- request rpc ;;
     ret (Result.ok res))
    (fun e => ret (Result.fail e)).

Definition setup (params : JsValue) : Async NodeResult :=
  let rpc := constructRpcRequest chan_requestSetup params in
  try_catch
    (res <- request rpc ;;
     ret (Result.ok res))
    (fun e => ret (Result.fail e)).

(** [throw new Error("Method not implemented")] in an [async] method:
    the promise it returns is rejected. *)
Definition internalSetup : Async NodeResult :=
  throw (ErrorObj "Method not implemented").

Definition sendDepositTx : Async NodeResult :=
  throw (ErrorObj "Method not implemented.").

Definition reconcileDeposit (params : JsValue) : Async NodeResult :=
  let rpc := constructRpcRequest chan_deposit params in
  try_catch
    (res <- request rpc ;;
     channelAddress <- eval (get res "channelAddress") ;;
     ret (Result.ok (JObj [("channelAddress", channelAddress)])))
    (fun e => ret (Result.fail e)).

(** The engine's answer is awaited and dropped. *)
Definition requestCollateral (params : JsValue) : Async NodeResult :=
  let rpc := constructRpcRequest chan_requestCollateral params in
  try_catch
    (_ <- request rpc ;;
     channelAddress <- eval (get params "channelAddress") ;;
     ret (Result.ok (JObj [("channelAddress", channelAddress)])))
    (fun e => ret (Result.fail e)).

(** [(res.latestUpdate.details as CreateUpdateDetails).transferId]: the
    cast leaves no trace at run time. *)
Definition latestUpdate_details (channel : JsValue) : Settled JsValue :=
  bind_settled (get channel "latestUpdate") (fun latestUpdate =>
  get latestUpdate "details").

(** [details.meta?.routingId] *)
Definition meta_routingId (details : JsValue) : Settled JsValue :=
  bind_settled (get details "meta") (fun meta => get_opt meta "routingId").

Definition conditionalTransfer (params : JsValue) : Async NodeResult :=
  let rpc := constructRpcRequest chan_createTransfer params in
  try_catch
    (res <- request rpc ;;
     channelAddress <- eval (get res "channelAddress") ;;
     details <- eval (latestUpdate_details res) ;;
     transferId <- eval (get details "transferId") ;;
     details' <- eval (latestUpdate_details res) ;;
     routingId <- eval (meta_routingId details') ;;
     ret (Result.ok (JObj [("channelAddress", channelAddress);
                           ("transferId", transferId);
                           ("routingId", routingId)])))
    (fun e => ret (Result.fail e)).

Definition resolveTransfer (params : JsValue) : Async NodeResult :=
  let rpc := constructRpcRequest chan_resolveTransfer params in
  try_catch
    (res <- request rpc ;;
     channelAddress <- eval (get res "channelAddress") ;;
     details <- eval (latestUpdate_details res) ;;
     transferId <- eval (get details "transferId") ;;
     details' <- eval (latestUpdate_details res) ;;
     routingId <- eval (meta_routingId details') ;;
     ret (Result.ok (JObj [("channelAddress", channelAddress);
                           ("transferId", transferId);
                           ("routingId", routingId)])))
    (fun e => ret (Result.fail e)).

Definition withdraw (params : JsValue) : Async NodeResult :=
  let rpc := constructRpcRequest chan_withdraw params in
  try_catch
    (res <- request rpc ;;
     channel <- eval (get res "channel") ;;
     channelAddress <- eval (get channel "channelAddress") ;;
     channel' <- eval (get res "channel") ;;
     details <- eval (latestUpdate_details channel') ;;
     transferId <- eval (get details "transferId") ;;
     transactionHash <- eval (get res "transactionHash") ;;
     ret (Result.ok (JObj [("channelAddress", channelAddress);
                           ("transferId", transferId);
                           ("transactionHash", transactionHash)])))
    (fun e => ret (Result.fail e)).

(** *** Dispute methods *)

Definition sendDisputeChannelTx (params : JsValue) : Async NodeResult :=
  let rpc := constructRpcRequest chan_dispute params in
  try_catch
    (res <- request rpc ;;
     transactionHash <- eval (get res "transactionHash") ;;
     ret (Result.ok (JObj [("txHash", transactionHash)])))
    (fun e => ret (Result.fail e)).

Definition sendDefundChannelTx (params : JsValue) : Async NodeResult :=
  let rpc := constructRpcRequest chan_defund params in
  try_catch
    (res <- request rpc ;;
     transactionHash <- eval (get res "transactionHash") ;;
     ret (Result.ok (JObj [("txHash", transactionHash)])))
    (fun e => ret (Result.fail e)).

Definition sendDisputeTransferTx (params : JsValue) : Async NodeResult :=
  let rpc := constructRpcRequest chan_disputeTransfer params in
  try_catch
    (res <- request rpc ;;
     transactionHash <- eval (get res "transactionHash") ;;
     ret (Result.ok (JObj [("txHash", transactionHash)])))
    (fun e => ret (Result.fail e)).

Definition sendDefundTransferTx (params : JsValue) : Async NodeResult :=
  let rpc := constructRpcRequest chan_defundTransfer params in
  try_catch
    (res <- request rpc ;;
     transactionHash <- eval (get res "transactionHash") ;;
     ret (Result.ok (JObj [("txHash", transactionHash)])))
    (fun e => ret (Result.fail e)).

(** [return this.engine.waitFor(event, timeout, filter)]: the engine's
    promise is handed back as it is. *)
Definition waitFor (event : string) (timeout : Z) (filter : option (JsValue -> bool))
  : Async JsValue :=
  fun w => let (r, s') := engine_waitFor event timeout filter (engine w) in
           (r, {| engine := s'; sent := sent w |}).

(** *** The surface as a whole *)

(** The methods of the class that promise a [Result]. *)
Inductive Method : Type :=
| M_createNode
| M_getStateChannelByParticipants
| M_getStateChannel
| M_getStateChannels
| M_getTransferByRoutingId
| M_getTransfersByRoutingId
| M_getTransfer
| M_getActiveTransfers
| M_setup
| M_internalSetup
| M_sendDepositTx
| M_reconcileDeposit
| M_requestCollateral
| M_conditionalTransfer
| M_resolveTransfer
| M_withdraw
| M_sendDisputeChannelTx
| M_sendDefundChannelTx
| M_sendDisputeTransferTx
| M_sendDefundTransferTx.

Definition invoke (m : Method) (params : JsValue) : Async NodeResult :=
  match m with
  | M_createNode => createNode params
  | M_getStateChannelByParticipants => getStateChannelByParticipants params
  | M_getStateChannel => getStateChannel params
  | M_getStateChannels => getStateChannels
  | M_getTransferByRoutingId => getTransferByRoutingId params
  | M_getTransfersByRoutingId => getTransfersByRoutingId params
  | M_getTransfer => getTransfer params
  | M_getActiveTransfers => getActiveTransfers params
  | M_setup => setup params
  | M_internalSetup => internalSetup
  | M_sendDepositTx => sendDepositTx
  | M_reconcileDeposit => reconcileDeposit params
  | M_requestCollateral => requestCollateral params
  | M_conditionalTransfer => conditionalTransfer params
  | M_resolveTransfer => resolveTransfer params
  | M_withdraw => withdraw params
  | M_sendDisputeChannelTx => sendDisputeChannelTx params
  | M_sendDefundChannelTx => sendDefundChannelTx params
  | M_sendDisputeTransferTx => sendDisputeTransferTx params
  | M_sendDefundTransferTx => sendDefundTransferTx params
  end.

(** The two methods whose body is a bare [throw]. *)
Definition implemented (m : Method) : bool :=
  match m with
  | M_internalSetup | M_sendDepositTx => false
  | _ => true
  end.

(** A method keeps to the envelope when its promise always resolves,
    to a [Result]. *)
Definition never_throws (m : Method) : Prop :=
  forall params w, exists r : NodeResult, fst (invoke m params w) = Resolved r.

(** The exposed operations of section 4.4 of the specification, each
    with the RPC method that answers it. *)
Definition rpc_method (m : Method) : option ChannelRpcMethod :=
  match m with
  | M_setup => Some chan_requestSetup
  | M_reconcileDeposit => Some chan_deposit
  | M_requestCollateral => Some chan_requestCollateral
  | M_conditionalTransfer => Some chan_createTransfer
  | M_resolveTransfer => Some chan_resolveTransfer
  | M_withdraw => Some chan_withdraw
  | M_sendDisputeChannelTx => Some chan_dispute
  | M_sendDefundChannelTx => Some chan_defund
  | M_sendDisputeTransferTx => Some chan_disputeTransfer
  | M_sendDefundTransferTx => Some chan_defundTransfer
  | _ => None
  end.

(** An operation wraps the engine's response when it hands the engine
    one request, built from [method] and the caller's params, and
    settles with [Result.ok] of some projection of the response, or
    with [Result.fail] of what the engine threw. *)
Definition wraps_engine_response (m : Method) (method : ChannelRpcMethod) : Prop :=
  exists projection : JsValue -> JsValue,
  forall params w,
    let rpc := constructRpcRequest method params in
    sent (snd (invoke m params w)) = (sent w ++ [rpc])%list /\
    match fst (engine_request rpc (engine w)) with
    | Resolved res => fst (invoke m params w) = Resolved (Result.ok (projection res))
    | Rejected e => fst (invoke m params w) = Resolved (Result.fail e)
    end.

(** A method passes the engine's response through when it hands the
    engine one request, built from [method] and the caller's params, and
    settles with [Result.ok] of the response as it is, or with
    [Result.fail] of what the engine threw. *)
Definition passes_through (op : JsValue -> Async NodeResult) (method : ChannelRpcMethod)
  : Prop :=
  forall params w,
    op params w =
      (Resolved match fst (engine_request (constructRpcRequest method params) (engine w)) with
                | Resolved res => Result.ok res
                | Rejected e => Result.fail e
                end,
       {| engine := snd (engine_request (constructRpcRequest method params) (engine w));
          sent := (sent w ++ [constructRpcRequest method params])%list |}).

End Methods.

(** *** Payloads as projections

    A payload described by where each of its fields is read from. *)

Inductive Access : Type :=
| Dot (k : string)       (* .k *)
| OptDot (k : string).   (* ?.k *)

Fixpoint read (v : JsValue) (path : list Access) : Settled JsValue :=
  match path with
  | [] => Resolved v
  | Dot k :: rest => bind_settled (get v k) (fun v' => read v' rest)
  | OptDot k :: rest => bind_settled (get_opt v k) (fun v' => read v' rest)
  end.

Fixpoint read_fields (shape : list (string * list Access)) (v : JsValue)
  : Settled (list (string * JsValue)) :=
  match shape with
  | [] => Resolved []
  | (name, path) :: rest =>
      bind_settled (read v path) (fun x =>
      bind_settled (read_fields rest v) (fun xs => Resolved ((name, x) :: xs)))
  end.

Definition object_of (shape : list (string * list Access)) (v : JsValue) : Settled JsValue :=
  bind_settled (read_fields shape v) (fun fields => Resolved (JObj fields)).

Definition transfer_shape : list (string * list Access) :=
  [("channelAddress", [Dot "channelAddress"]);
   ("transferId", [Dot "latestUpdate"; Dot "details"; Dot "transferId"]);
   ("routingId", [Dot "latestUpdate"; Dot "details"; Dot "meta"; OptDot "routingId"])].

Definition withdraw_shape : list (string * list Access) :=
  [("channelAddress", [Dot "channel"; Dot "channelAddress"]);
   ("transferId", [Dot "channel"; Dot "latestUpdate"; Dot "details"; Dot "transferId"]);
   ("transactionHash", [Dot "transactionHash"])].

(** The success payload of each exposed operation, given the caller's
    params and the engine's response. *)
Definition payload_of (m : Method) (params res : JsValue) : Settled JsValue :=
  match m with
  | M_reconcileDeposit => object_of [("channelAddress", [Dot "channelAddress"])] res
  | M_requestCollateral => object_of [("channelAddress", [Dot "channelAddress"])] params
  | M_conditionalTransfer | M_resolveTransfer => object_of transfer_shape res
  | M_withdraw => object_of withdraw_shape res
  | M_sendDisputeChannelTx | M_sendDefundChannelTx
  | M_sendDisputeTransferTx | M_sendDefundTransferTx =>
      object_of [("txHash", [Dot "transactionHash"])] res
  | _ => Resolved res
  end.

(** An engine that answers from a script, one entry per request, and
    rejects once the script is used up; requests are the pair of their
    method and params. *)
Definition scripted : IVectorEngine :=
  {| EngineState := list (Settled JsValue);
     RpcRequest := ChannelRpcMethod * JsValue;
     constructRpcRequest := pair;
     engine_publicIdentifier := fun _ => JStr "vector8browser";
     engine_signerAddress := fun _ => JStr "0xsigner";
     engine_request := fun _ script =>
       match script with
       | [] => (Rejected (EngineRejection JUndefined), [])
       | answer :: rest => (answer, rest)
       end;
     engine_waitFor := fun _ _ _ script => (Resolved JUndefined, script) |}.

(** *** Requests and answers to run the methods on *)

(** A channel as the engine answers a transfer request with it. *)
Definition channel_with_transfer : JsValue :=
  JObj [("channelAddress", JStr "0xchannel");
        ("nonce", JNum 4);
        ("latestUpdate",
          JObj [("type", JStr "create");
                ("details",
                  JObj [("transferId", JStr "0xtransfer");
                        ("meta", JObj [("routingId", JStr "0xrouting")])])])].

Definition transfer_params : JsValue :=
  JObj [("channelAddress", JStr "0xchannel"); ("amount", JStr "30")].

Definition answering (answers : list (Settled JsValue)) : World (Engine := scripted) :=
  @mkWorld scripted answers [].

Definition transfer_payload : JsValue :=
  JObj [("channelAddress", JStr "0xchannel");
        ("transferId", JStr "0xtransfer");
        ("routingId", JStr "0xrouting")].

(** After a Resolve update the details still carry the transfer's id;
    here they carry no [meta]. *)
Definition channel_after_resolve : JsValue :=
  JObj [("channelAddress", JStr "0xchannel");
        ("latestUpdate",
          JObj [("type", JStr "resolve");
                ("details", JObj [("transferId", JStr "0xtransfer")])])].

(** *** Responses as their declared types promise them *)

Definition is_type_error (e : Thrown) : bool :=
  match e with
  | TypeErrorObj _ => true
  | _ => false
  end.

(** The fields of a channel object and of the details of its latest
    update, when the channel has the declared shape: an object whose
    [latestUpdate] is an object whose [details] is an object. *)
Definition typed_channel (channel : JsValue)
  : option (list (string * JsValue) * list (string * JsValue)) :=
  match channel with
  | JObj fields =>
      match lookup_field "latestUpdate" fields with
      | JObj update =>
          match lookup_field "details" update with
          | JObj details => Some (fields, details)
          | _ => None
          end
      | _ => None
      end
  | _ => None
  end.

(** What [meta?.routingId] reads off the fields of the details. *)
Definition routingId_of (details : list (string * JsValue)) : JsValue :=
  match lookup_field "meta" details with
  | JObj meta => lookup_field "routingId" meta
  | _ => JUndefined
  end.

(** The four dispute-submission calls. *)
Definition submits_dispute (m : Method) : bool :=
  match m with
  | M_sendDisputeChannelTx | M_sendDefundChannelTx
  | M_sendDisputeTransferTx | M_sendDefundTransferTx => true
  | _ => false
  end.

(** *** The [Result] the caller holds *)





Section Outcome.
Context `{Engine : IVectorEngine}.





End Outcome.


End BrowserNode.

(** ** LibERC20 ([modules/contracts/src.sol/lib/LibERC20.sol]) *)

Module LibERC20.

Definition address : Type := Z.
Definition bytes : Type := list Byte.byte.

(** The arguments the library ABI-encodes. *)
Inductive AbiValue : Type :=
| AbiAddress (a : address)
| AbiUint256 (n : Z).

(** Why an execution reverted. *)
Inductive RevertData : Type :=
| ErrorString (reason : string)   (* require(cond, reason) *)
| Bubbled (returnData : bytes)    (* the callee's own revert data *)
| DecodingFailed.                 (* abi.decode on malformed data *)

(** The EVM around the library: the chain state, OpenZeppelin's
    [Address.isContract], [gasleft()], the low-level [call], and the
    builtin [abi.encodeWithSignature]. *)
Class EVM : Type := {
  State : Type;
  isContract : address -> State -> bool;
  gasleft : State -> Z;
  call : address -> Z -> bytes -> State -> (bool * bytes) * State;
  abi_encodeWithSignature : string -> list AbiValue -> bytes;
}.

Section Library.
Context `{Evm : EVM}.

(** An internal function either returns, in a new state, or reverts,
    which discards the state. *)
Inductive Exec (A : Type) : Type :=
| Returned (a : A) (s : State)
| Reverted (r : RevertData).
Arguments Returned {A} a s.
Arguments Reverted {A} r.

(** The 32-byte big-endian word at the head of [data]. *)
Definition word_of (data : bytes) : Z :=
  fold_left (fun acc b => acc * 256 + Z.of_N (Byte.to_N b)) (firstn 32 data) 0.

(** [abi.decode(data, (bool))] under [pragma experimental ABIEncoderV2]:
    fewer than 32 bytes revert, and so does a word other than 0 and 1. *)
Definition abi_decode_bool (data : bytes) : option bool :=
  if (length data <? 32)%nat then None
  else if word_of data =? 0 then Some false
  else if word_of data =? 1 then Some true
  else None.

(** Modelled from the spec: [LibUtils.revertIfCallFailed] lives in
    [lib/LibUtils.sol], which is not among the sources; by its name and
    its use here, it reverts with the callee's return data when
    [success] is false and does nothing otherwise. *)
Definition revertIfCallFailed (success : bool) (returnData : bytes) : option RevertData :=
  if success then None else Some (Bubbled returnData).

(** [wrapCall(address assetId, bytes memory callData, uint256 gas)] *)
Definition wrapCall_gas (assetId : address) (callData : bytes) (gas : Z) (s : State)
  : Exec bool :=
  if negb (isContract assetId s) then Reverted (ErrorString "LibERC20: NO_CODE")
  else
    let '((success, returnData), s') := call assetId gas callData s in
    match revertIfCallFailed success returnData with
    | Some r => Reverted r
    | None =>
        if (length returnData =? 0)%nat then Returned true s'
        else match abi_decode_bool returnData with
             | Some b => Returned b s'
             | None => Reverted DecodingFailed
             end
    end.

(** [wrapCall(address assetId, bytes memory callData)] *)
Definition wrapCall (assetId : address) (callData : bytes) (s : State) : Exec bool :=
  wrapCall_gas assetId callData (gasleft s) s.

Definition approve (assetId spender : address) (amount : Z) (s : State) : Exec bool :=
  wrapCall assetId
    (abi_encodeWithSignature "approve(address,uint256)"
       [AbiAddress spender; AbiUint256 amount]) s.

Definition transferFrom (assetId sender recipient : address) (amount : Z) (s : State)
  : Exec bool :=
  wrapCall assetId
    (abi_encodeWithSignature "transferFrom(address,address,uint256)"
       [AbiAddress sender; AbiAddress recipient; AbiUint256 amount]) s.

(** [transfer(address assetId, address recipient, uint256 amount, uint256 gas)] *)
Definition transfer_gas (assetId recipient : address) (amount : Z) (gas : Z) (s : State)
  : Exec bool :=
  wrapCall_gas assetId
    (abi_encodeWithSignature "transfer(address,uint256)"
       [AbiAddress recipient; AbiUint256 amount]) gas s.

(** [transfer(address assetId, address recipient, uint256 amount)] *)
Definition transfer (assetId recipient : address) (amount : Z) (s : State) : Exec bool :=
  transfer_gas assetId recipient amount (gasleft s) s.

End Library.
Arguments Returned {Evm A} a s.
Arguments Reverted {Evm A} r.

(** A chain with one contract, at address 1; its state says whether the
    next call to it succeeds and what it returns. *)
Definition one_token : EVM :=
  {| State := bool * bytes;
     isContract := fun a _ => a =? 1;
     gasleft := fun _ => 100000;
     call := fun _ _ _ s => (s, s);
     abi_encodeWithSignature := fun _ _ => [] |}.

Definition word (last : Byte.byte) : bytes := (repeat Byte.x00 31 ++ [last])%list.

End LibERC20.

(** ** The channel state machine

    The engine package (vector-engine, vector-protocol) that validates and
    applies updates is not among the sources; this is the state machine as
    sections 3, 4.1, 5 and 8 of the specification describe it. *)

Module Channel.

Inductive Party : Type := Alice | Bob.

Inductive UpdateType : Type := Setup | Deposit | Create | Resolve | Withdraw.

(** The typed failures of section 7 that the state machine returns. *)
Inductive ChannelError : Type :=
| StaleChannelError
| InvalidSignatureError
| NonceMismatchError
| TransitionRejectedError
| TransferNotFoundError
| ResolverInvalidError.

(** Modelled from the spec: the engine's Transfer type is not among the
    sources; section 3 gives its attributes, to which the asset and the
    party that locked the balance are added. *)
Record Transfer : Type := mkTransfer {
  transferId : string;
  definition : string;
  initialState : string;
  assetId : string;
  locker : Party;
  locked : Z;
  expiry : option Z;
  routingId : option string;
}.

(** Modelled from the spec: the engine's update details are not among the
    sources; "a [details] payload specific to type" (section 3), one shape
    per transition function of section 4.1. *)
Inductive UpdateDetails : Type :=
| SetupDetails (alice bob : string) (chainId : Z)
| DepositDetails (asset : string) (who : Party) (amount : Z)
| CreateDetails (transfer : Transfer)
| ResolveDetails (id : string) (resolverPayload : string)
| WithdrawDetails (asset : string) (who : Party) (amount : Z).

(** Modelled from the spec: the engine's Update type is not among the
    sources; section 3: type, target nonce, details, the merkle root of the
    state the proposer claims to result, and the signatures of the
    initiator and the counterparty. *)
Record Update : Type := mkUpdate {
  type : UpdateType;
  nonce : Z;
  details : UpdateDetails;
  claimedRoot : string;
  proposer : Party;
  proposerSignature : string;
  counterSignature : option string;
}.

#[global] Instance Party_eq_dec : EqDecision Party.
Proof. solve_decision. Defined.
#[global] Instance UpdateType_eq_dec : EqDecision UpdateType.
Proof. solve_decision. Defined.
#[global] Instance Transfer_eq_dec : EqDecision Transfer.
Proof. solve_decision. Defined.
#[global] Instance UpdateDetails_eq_dec : EqDecision UpdateDetails.
Proof. solve_decision. Defined.
#[global] Instance Update_eq_dec : EqDecision Update.
Proof. solve_decision. Defined.

(** Modelled from the spec: the engine's ChannelState is not among the
    sources; section 3.  [balances] holds one (alice, bob) pair per tracked
    asset. *)
Record ChannelState : Type := mkChannelState {
  channelAddress : string;
  participants : option (string * string);
  chain : Z;
  balances : gmap string (Z * Z);
  channelNonce : Z;
  merkleRoot : string;
  activeTransfers : gmap string Transfer;
  latestUpdate : option Update;
}.

(** The collaborators of sections 6 and 9 that the state machine consults:
    the signer and signature verification, the merkle root of the active
    transfers, the transfer registry's resolution function (4.2) and the
    chain service's deposit record. *)
Class Collaborators : Type := {
  sign : Party -> UpdateType -> Z -> UpdateDetails -> string;
  verifySignature : Party -> string -> UpdateType -> Z -> UpdateDetails -> bool;
  merkleRootOf : gmap string Transfer -> string;
  resolution : Transfer -> string -> option (Z * Z);
  depositCorroborated : string -> Party -> Z -> bool;
}.

Definition other (p : Party) : Party :=
  match p with Alice => Bob | Bob => Alice end.

Definition balanceOf (st : ChannelState) (asset : string) : Z * Z :=
  default (0, 0) (balances st !! asset).

Definition share (p : Party) (b : Z * Z) : Z :=
  match p with Alice => fst b | Bob => snd b end.

Definition credit (p : Party) (amount : Z) (b : Z * Z) : Z * Z :=
  match p with
  | Alice => (fst b + amount, snd b)
  | Bob => (fst b, snd b + amount)
  end.

Definition type_of_details (d : UpdateDetails) : UpdateType :=
  match d with
  | SetupDetails _ _ _ => Setup
  | DepositDetails _ _ _ => Deposit
  | CreateDetails _ => Create
  | ResolveDetails _ _ => Resolve
  | WithdrawDetails _ _ _ => Withdraw
  end.

(** "Same nonce, same payload" (section 8, Idempotence). *)
Definition same_update (u v : Update) : bool :=
  bool_decide (nonce u = nonce v)
  && bool_decide (type u = type v)
  && bool_decide (details u = details v)
  && bool_decide (proposer u = proposer v).

Definition counter_signed (u : Update) (signature : string) : Update :=
  {| type := type u; nonce := nonce u; details := details u;
     claimedRoot := claimedRoot u; proposer := proposer u;
     proposerSignature := proposerSignature u;
     counterSignature := Some signature |}.

Section Machine.
Context `{Ext : Collaborators}.

Definition with_balance (st : ChannelState) (asset : string) (b : Z * Z)
  (transfers : gmap string Transfer) : ChannelState :=
  {| channelAddress := channelAddress st;
     participants := participants st;
     chain := chain st;
     balances := <[asset := b]> (balances st);
     channelNonce := channelNonce st;
     merkleRoot := merkleRootOf transfers;
     activeTransfers := transfers;
     latestUpdate := latestUpdate st |}.

(** Modelled from the spec: the engine's transition functions are not
    among the sources; section 4.1, "Transition functions per type".  The
    nonce and [latestUpdate] are set when the update is persisted. *)
Definition transition (st : ChannelState) (d : UpdateDetails)
  : Result.t ChannelState ChannelError :=
  match d with
  | SetupDetails a b c =>
      match participants st with
      | Some _ => Result.fail TransitionRejectedError
      | None =>
          Result.ok {| channelAddress := channelAddress st;
                       participants := Some (a, b);
                       chain := c;
                       balances := ∅;
                       channelNonce := channelNonce st;
                       merkleRoot := merkleRootOf ∅;
                       activeTransfers := ∅;
                       latestUpdate := latestUpdate st |}
      end
  | DepositDetails asset who amount =>
      if (0 <=? amount) && depositCorroborated asset who amount
      then Result.ok (with_balance st asset (credit who amount (balanceOf st asset))
                        (activeTransfers st))
      else Result.fail TransitionRejectedError
  | CreateDetails t =>
      match activeTransfers st !! transferId t with
      | Some _ => Result.fail TransitionRejectedError
      | None =>
          if (0 <=? locked t) && (locked t <=? share (locker t) (balanceOf st (assetId t)))
          then Result.ok (with_balance st (assetId t)
                            (credit (locker t) (- locked t) (balanceOf st (assetId t)))
                            (<[transferId t := t]> (activeTransfers st)))
          else Result.fail TransitionRejectedError
      end
  | ResolveDetails id payload =>
      match activeTransfers st !! id with
      | None => Result.fail TransferNotFoundError
      | Some t =>
          match resolution t payload with
          | None => Result.fail ResolverInvalidError
          | Some (toResponder, toLocker) =>
              if (0 <=? toResponder) && (0 <=? toLocker)
                 && (toResponder + toLocker =? locked t)
              then Result.ok (with_balance st (assetId t)
                                (credit (other (locker t)) toResponder
                                   (credit (locker t) toLocker (balanceOf st (assetId t))))
                                (delete id (activeTransfers st)))
              else Result.fail ResolverInvalidError
          end
      end
  | WithdrawDetails asset who amount =>
      if (0 <=? amount) && (amount <=? share who (balanceOf st asset))
      then Result.ok (with_balance st asset (credit who (- amount) (balanceOf st asset))
                        (activeTransfers st))
      else Result.fail TransitionRejectedError
  end.

(** The store collaborator for one channel: the current state and the
    update history, oldest first, each update with the state it resulted
    in. *)
Record Store : Type := mkStore {
  current : ChannelState;
  history : list (Update * ChannelState);
}.

(** The applied updates of a channel, oldest first. *)
Definition applied (store : Store) : list Update := map fst (history store).

Definition applied_state (st : ChannelState) (u : Update) : ChannelState :=
  {| channelAddress := channelAddress st;
     participants := participants st;
     chain := chain st;
     balances := balances st;
     channelNonce := nonce u;
     merkleRoot := merkleRoot st;
     activeTransfers := activeTransfers st;
     latestUpdate := Some u |}.

(** [saveChannelState(state, appliedUpdate)] *)
Definition persist (st : ChannelState) (u : Update) (store : Store) : Store :=
  {| current := applied_state st u;
     history := history store ++ [(u, applied_state st u)] |}.

(** The state an update resulted in, if it was applied before. *)
Definition replayed (u : Update) (store : Store) : option ChannelState :=
  snd <$> find (fun entry => same_update (fst entry) u) (history store).

(** Modelled from the spec: the engine's [receiveUpdate] is not among the
    sources; section 4.1, counterparty side.  A replay of an applied update
    is a no-op that returns the state it resulted in (section 8,
    Idempotence).  Otherwise: (a) the proposer's signature is verified, the
    target nonce must be the current nonce plus one (section 3), (b) the
    resulting state is recomputed, (c) compared with what the proposer
    claims, (d) the update is counter-signed and (e) persisted. *)
Definition receiveUpdate (u : Update) (store : Store)
  : Result.t ChannelState ChannelError * Store :=
  let st := current store in
  match replayed u store with
  | Some before => (Result.ok before, store)
  | None =>
      if negb (verifySignature (proposer u) (proposerSignature u)
                 (type u) (nonce u) (details u))
      then (Result.fail InvalidSignatureError, store)
      else if negb (nonce u =? channelNonce st + 1)
      then (Result.fail NonceMismatchError, store)
      else if negb (bool_decide (type_of_details (details u) = type u))
      then (Result.fail TransitionRejectedError, store)
      else match transition st (details u) with
           | Result.fail e => (Result.fail e, store)
           | Result.ok st' =>
               if negb (String.eqb (merkleRoot st') (claimedRoot u))
               then (Result.fail TransitionRejectedError, store)
               else
                 let signature := sign (other (proposer u)) (type u) (nonce u) (details u) in
                 let store' := persist st' (counter_signed u signature) store in
                 (Result.ok (current store'), store')
           end
  end.

(** Modelled from the spec: the engine's [proposeUpdate] is not among the
    sources; section 4.1: a candidate against the latest known state, the
    transition applied locally and not persisted, then signed; stale when
    the local nonce is behind the last known applied nonce. *)
Definition proposeUpdate (me : Party) (d : UpdateDetails) (lastKnownNonce : Z)
  (store : Store) : Result.t Update ChannelError :=
  let st := current store in
  if channelNonce st <? lastKnownNonce then Result.fail StaleChannelError
  else match transition st d with
       | Result.fail e => Result.fail e
       | Result.ok st' =>
           Result.ok {| type := type_of_details d;
                        nonce := channelNonce st + 1;
                        details := d;
                        claimedRoot := merkleRoot st';
                        proposer := me;
                        proposerSignature :=
                          sign me (type_of_details d) (channelNonce st + 1) d;
                        counterSignature := None |}
       end.

(** Modelled from the spec: the engine's [applyCounterSignedUpdate] is not
    among the sources; section 4.1, initiator side: the counterparty's
    signature must have been added to the exact payload proposed; then
    persist.  The state is the one the proposal was made against: the
    channel's lock is held from the proposal to here (section 5). *)
Definition applyCounterSignedUpdate (pending : Update) (reply : option string)
  (store : Store) : Result.t ChannelState ChannelError * Store :=
  match reply with
  | None => (Result.fail InvalidSignatureError, store)
  | Some signature =>
      if negb (verifySignature (other (proposer pending)) signature
                 (type pending) (nonce pending) (details pending))
      then (Result.fail InvalidSignatureError, store)
      else match transition (current store) (details pending) with
           | Result.fail e => (Result.fail e, store)
           | Result.ok st' =>
               let store' := persist st' (counter_signed pending signature) store in
               (Result.ok (current store'), store')
           end
  end.

(** What happens to one channel under its lock (section 5: exactly one
    update in flight at a time): an update of the counterparty is received,
    or an update is proposed and the counterparty's reply, if any, applied. *)
Inductive Action : Type :=
| Received (u : Update)
| Proposed (me : Party) (d : UpdateDetails) (lastKnownNonce : Z) (reply : option string).

Definition step (store : Store) (a : Action) : Store :=
  match a with
  | Received u => snd (receiveUpdate u store)
  | Proposed me d lastKnownNonce reply =>
      match proposeUpdate me d lastKnownNonce store with
      | Result.fail _ => store
      | Result.ok pending => snd (applyCounterSignedUpdate pending reply store)
      end
  end.

Definition run (actions : list Action) (store : Store) : Store :=
  fold_left step actions store.

(** A channel before its Setup update. *)
Definition fresh (address : string) : Store :=
  {| current := {| channelAddress := address;
                   participants := None;
                   chain := 0;
                   balances := ∅;
                   channelNonce := 0;
                   merkleRoot := merkleRootOf ∅;
                   activeTransfers := ∅;
                   latestUpdate := None |};
     history := [] |}.

(** Nonce monotonicity over the applied updates. *)
Definition consecutive_nonces (updates : list Update) : Prop :=
  forall (i : nat) (u v : Update),
    updates !! i = Some u -> updates !! S i = Some v -> nonce v = nonce u + 1.

(** What the store keeps true: the applied updates carry consecutive
    nonces and the last of them carries the channel's nonce. *)
Definition store_in_step (store : Store) : Prop :=
  consecutive_nonces (applied store)
  /\ (forall u, last (applied store) = Some u -> nonce u = channelNonce (current store)).

End Machine.

(** *** A run of updates *)

(** Collaborators that sign with "signed" and accept that signature,
    corroborate every deposit and resolve a transfer wholly to the
    responder. *)
Definition trusting : Collaborators :=
  {| sign := fun _ _ _ _ => "signed";
     verifySignature := fun _ signature _ _ _ => String.eqb signature "signed";
     merkleRootOf := fun transfers => if decide (transfers = ∅) then "0x0" else "0xroot";
     resolution := fun t _ => Some (locked t, 0);
     depositCorroborated := fun _ _ _ => true |}.

Definition proposal (n : Z) (d : UpdateDetails) (root : string) : Update :=
  {| type := type_of_details d; nonce := n; details := d; claimedRoot := root;
     proposer := Alice; proposerSignature := "signed"; counterSignature := None |}.

Definition setup_update : Update := proposal 1 (SetupDetails "alice" "bob" 1337) "0x0".
Definition deposit_update : Update := proposal 2 (DepositDetails "X" Alice 100) "0x0".
Definition create_details : UpdateDetails :=
  CreateDetails (mkTransfer "0xtransfer" "hashlock" "0xstate" "X" Alice 30
                   (Some 100) (Some "R")).

(** A Setup, a Deposit, the Deposit replayed, an update from the future,
    a forged Create, the Setup replayed, and a Create proposed from this
    side and counter-signed. *)
Definition eventful : list Action :=
  [Received setup_update;
   Received deposit_update;
   Received deposit_update;
   Received (proposal 7 (DepositDetails "X" Bob 5) "0x0");
   Received {| type := Create; nonce := 3; details := create_details;
               claimedRoot := "0xroot"; proposer := Alice;
               proposerSignature := "forged"; counterSignature := None |};
   Received setup_update;
   Proposed Bob (ResolveDetails "0xmissing" "preimage") 2 (Some "signed");
   Proposed Alice create_details 2 (Some "signed")].

Definition created_update : Update :=
  {| type := Create; nonce := 3; details := create_details; claimedRoot := "0xroot";
     proposer := Alice; proposerSignature := "signed"; counterSignature := Some "signed" |}.

End Channel.

(** ** The router's forwarding engine

    The router package is not among the sources; this is the forwarding
    engine as section 4.3 of the specification describes it, one record per
    routed payment, keyed by [routingId]. *)

Module Router.

Inductive Leg : Type := Inbound | Outbound.

Inductive LegStatus : Type := NotCreated | Active | Resolved | Cancelled.

(** How an inbound transfer that could not be forwarded is cancelled:
    "by letting it expire or explicitly cancelling, per configured
    policy". *)
Inductive CancelPolicy : Type := LetExpire | CancelExplicitly.

#[global] Instance LegStatus_eq_dec : EqDecision LegStatus.
Proof. solve_decision. Defined.

(** Modelled from the spec: the router's record of a routed payment is not
    among the sources; section 4.3 has it track the status of the two
    legs, whether a ForwardingFailure is recorded for the payment, and
    whether its loss was absorbed by the router's collateral on expiry. *)
Record RoutedPayment : Type := mkPayment {
  inbound : LegStatus;
  outbound : LegStatus;
  forwardingFailure : bool;
  collateralAbsorbed : bool;
}.

Definition status (l : Leg) (p : RoutedPayment) : LegStatus :=
  match l with Inbound => inbound p | Outbound => outbound p end.

Definition opposite (l : Leg) : Leg :=
  match l with Inbound => Outbound | Outbound => Inbound end.

Definition set_status (l : Leg) (s : LegStatus) (p : RoutedPayment) : RoutedPayment :=
  match l with
  | Inbound => {| inbound := s; outbound := outbound p;
                  forwardingFailure := forwardingFailure p;
                  collateralAbsorbed := collateralAbsorbed p |}
  | Outbound => {| inbound := inbound p; outbound := s;
                   forwardingFailure := forwardingFailure p;
                   collateralAbsorbed := collateralAbsorbed p |}
  end.

Definition record_failure (p : RoutedPayment) : RoutedPayment :=
  {| inbound := inbound p; outbound := outbound p;
     forwardingFailure := true;
     collateralAbsorbed := collateralAbsorbed p |}.

Definition clear_failure (p : RoutedPayment) : RoutedPayment :=
  {| inbound := inbound p; outbound := outbound p;
     forwardingFailure := false;
     collateralAbsorbed := collateralAbsorbed p |}.

Definition record_absorption (p : RoutedPayment) : RoutedPayment :=
  {| inbound := inbound p; outbound := outbound p;
     forwardingFailure := forwardingFailure p;
     collateralAbsorbed := true |}.

(** The engine's record of the payment [routingId], if it has one, goes
    through [f]. *)
Definition on_payment (routingId : string) (f : RoutedPayment -> RoutedPayment)
  (st : gmap string RoutedPayment) : gmap string RoutedPayment :=
  match st !! routingId with
  | Some p => <[routingId := f p]> st
  | None => st
  end.

(** Modelled from the spec: the router's [onTransferCreated] is not among
    the sources; section 4.3.  An unseen [routingId] is a new payment to
    forward.  [forwarded] says whether collateralization and the mirrored
    Create on the outbound channel went through; if not, the outbound leg
    is left uncreated and the inbound transfer is cancelled per the
    configured policy. *)
Definition onTransferCreated (routingId : string) (forwarded : bool)
  (policy : CancelPolicy) (st : gmap string RoutedPayment) : gmap string RoutedPayment :=
  match st !! routingId with
  | Some _ => st
  | None =>
      if forwarded
      then <[routingId := mkPayment Active Active false false]> st
      else <[routingId := mkPayment
                            (match policy with
                             | LetExpire => Active
                             | CancelExplicitly => Cancelled
                             end)
                            NotCreated false false]> st
  end.

(** Modelled from the spec: the router's [onTransferResolved] is not among
    the sources; sections 4.3 and 8.  The resolution the engine hears of is
    the outbound leg's: the recipient resolves it, and the router has
    thereby paid out.  The inbound leg is the router's own to resolve, which
    it does by the Resolve it proposes here with the same payload
    ([mirrored] says whether that went through).  If the resolve fails a
    ForwardingFailure is recorded; if the inbound leg has already expired
    there is nothing left to collect: the failure is recorded and the
    router's collateral absorbs the loss. *)
Definition mirror_resolve (mirrored : bool) (p : RoutedPayment) : RoutedPayment :=
  match outbound p with
  | Active =>
      let p' := set_status Outbound Resolved p in
      match inbound p with
      | Active => if mirrored then set_status Inbound Resolved p' else record_failure p'
      | Cancelled => record_absorption (record_failure p')
      | _ => p'
      end
  | _ => p
  end.

Definition onTransferResolved (routingId : string) (mirrored : bool)
  (st : gmap string RoutedPayment) : gmap string RoutedPayment :=
  on_payment routingId (mirror_resolve mirrored) st.

(** Modelled from the spec: the router's retry of a failed forwarding is
    not among the sources; section 4.3: a recorded ForwardingFailure "must
    be retried until the node's own transfer on that leg also resolves or
    expires".  This is one retry of the action that failed, on the leg that
    is still active: the mirrored Resolve of the inbound leg, or the
    mirrored cancellation of the leg whose twin has expired. *)
Definition retry (mirrored : bool) (p : RoutedPayment) : RoutedPayment :=
  if forwardingFailure p && negb (collateralAbsorbed p) && mirrored
  then
    match inbound p, outbound p with
    | Active, Resolved => clear_failure (set_status Inbound Resolved p)
    | Active, Cancelled => clear_failure (set_status Inbound Cancelled p)
    | Cancelled, Active => clear_failure (set_status Outbound Cancelled p)
    | _, _ => p
    end
  else p.

Definition retryForwarding (routingId : string) (mirrored : bool)
  (st : gmap string RoutedPayment) : gmap string RoutedPayment :=
  on_payment routingId (retry mirrored) st.

(** Modelled from the spec: the router's handling of an expired transfer
    is not among the sources; sections 4.3 and 8.  An active leg that
    expires is cancelled.  If the inbound leg expires after the outbound
    one was resolved, the router's collateral absorbs the loss; if the
    other leg is still active it is cancelled too ([mirrored]), or a
    ForwardingFailure is recorded (section 8, second scenario); if the
    other leg was cancelled before, the payment is closed and no failure is
    left to retry. *)
Definition expire (leg : Leg) (mirrored : bool) (p : RoutedPayment) : RoutedPayment :=
  match status leg p with
  | Active =>
      let p' := set_status leg Cancelled p in
      match status (opposite leg) p with
      | Resolved =>
          match leg with
          | Inbound => record_absorption p'
          | Outbound => p'
          end
      | Active => if mirrored then set_status (opposite leg) Cancelled p' else record_failure p'
      | Cancelled => clear_failure p'
      | NotCreated => p'
      end
  | _ => p
  end.

Definition onTransferExpired (routingId : string) (leg : Leg) (mirrored : bool)
  (st : gmap string RoutedPayment) : gmap string RoutedPayment :=
  on_payment routingId (expire leg mirrored) st.

Inductive Event : Type :=
| TransferCreated (routingId : string) (forwarded : bool) (policy : CancelPolicy)
| TransferResolved (routingId : string) (mirrored : bool)
| Retry (routingId : string) (mirrored : bool)
| TransferExpired (routingId : string) (leg : Leg) (mirrored : bool).

Definition handle (st : gmap string RoutedPayment) (e : Event) : gmap string RoutedPayment :=
  match e with
  | TransferCreated r forwarded policy => onTransferCreated r forwarded policy st
  | TransferResolved r mirrored => onTransferResolved r mirrored st
  | Retry r mirrored => retryForwarding r mirrored st
  | TransferExpired r leg mirrored => onTransferExpired r leg mirrored st
  end.

Definition run (events : list Event) : gmap string RoutedPayment :=
  fold_left handle events ∅.

(** Both legs active, or both resolved, or both cancelled. *)
Definition consistent (p : RoutedPayment) : bool :=
  match inbound p, outbound p with
  | Active, Active | Resolved, Resolved | Cancelled, Cancelled => true
  | _, _ => false
  end.




(** The payment could not be forwarded: there is no outbound leg, and the
    inbound one is left to expire or is cancelled. *)
Definition never_forwarded (p : RoutedPayment) : bool :=
  match inbound p, outbound p with
  | Active, NotCreated | Cancelled, NotCreated => true
  | _, _ => false
  end.

(** A ForwardingFailure is recorded and still to be made good: one leg is
    resolved or cancelled, its twin still active. *)
Definition awaiting_retry (p : RoutedPayment) : bool :=
  forwardingFailure p && negb (collateralAbsorbed p)
  && match inbound p, outbound p with
     | Active, Resolved | Active, Cancelled | Cancelled, Active => true
     | _, _ => false
     end.

(** The router paid out and the inbound leg expired: the failure stays on
    record, and the loss is booked against the router's collateral. *)
Definition absorbed_on_expiry (p : RoutedPayment) : bool :=
  collateralAbsorbed p && forwardingFailure p
  && bool_decide (inbound p = Cancelled) && bool_decide (outbound p = Resolved).

(** No failure is recorded and nothing was absorbed. *)
Definition clean (p : RoutedPayment) : bool :=
  negb (forwardingFailure p) && negb (collateralAbsorbed p).

(** The states a routed payment is ever in. *)
Definition accounted (p : RoutedPayment) : bool :=
  (consistent p || never_forwarded p) && clean p
  || awaiting_retry p
  || absorbed_on_expiry p.


(** The recipient resolves the outbound leg; the mirrored Resolve on the
    inbound leg does not go through. *)
Definition failed_mirror : list Event :=
  [TransferCreated "R" true LetExpire; TransferResolved "R" false].

(** The inbound leg expires with the outbound one still active and not
    cancelled in turn; the recipient then resolves the outbound leg. *)
Definition resolved_after_expiry : list Event :=
  [TransferCreated "R" true LetExpire; TransferExpired "R" Inbound false;
   TransferResolved "R" true].

End Router.

(** ** The engine's event surface

    [BrowserNode.waitFor] hands the call to the engine, whose code is not
    among the sources; this is [waitFor] as sections 6 and 9 of the
    specification describe it: filtered waiting against an injected clock,
    with a hard timeout that answers "not observed". *)

Module EngineEvents.

Record Emitted : Type := mkEmitted {
  emittedAt : Z;
  eventType : string;
  payload : JsValue;
}.

(** The injected clock and the events still to be emitted, in the order
    of their emission. *)
Record Clocked : Type := mkClocked {
  now : Z;
  upcoming : list Emitted;
}.

Definition matching (event : string) (filter : option (JsValue -> bool)) (e : Emitted) : bool :=
  String.eqb (eventType e) event
  && match filter with
     | None => true
     | Some f => f (payload e)
     end.

(** Modelled from the spec: the engine's event emitter is not among the
    sources; section 5 has events observed in the order of their emission.
    An event emitted after the deadline means the timer fired first. *)
Fixpoint observe (event : string) (filter : option (JsValue -> bool)) (deadline : Z)
  (events : list Emitted) : option Emitted * list Emitted :=
  match events with
  | [] => (None, [])
  | e :: rest =>
      if deadline <? emittedAt e then (None, events)
      else if matching event filter e then (Some e, rest)
      else observe event filter deadline rest
  end.

(** Modelled from the spec: the engine's [waitFor] is not among the
    sources; section 6: [waitFor(eventType, timeout, filter?)] "with a hard
    timeout returning not observed rather than blocking forever". *)
Definition waitFor (event : string) (timeout : Z) (filter : option (JsValue -> bool))
  (s : Clocked) : Settled JsValue * Clocked :=
  let deadline := now s + Z.max 0 timeout in
  match observe event filter deadline (upcoming s) with
  | (Some e, rest) => (Resolved (payload e), {| now := Z.max (now s) (emittedAt e); upcoming := rest |})
  | (None, rest) => (Resolved JUndefined, {| now := deadline; upcoming := rest |})
  end.

(** The events emitted by the deadline, in order. *)
Fixpoint emitted_by (deadline : Z) (events : list Emitted) : list Emitted :=
  match events with
  | [] => []
  | e :: rest => if deadline <? emittedAt e then [] else e :: emitted_by deadline rest
  end.

(** What a waiter that observed [e], or nothing, resolves with. *)
Definition observed_value (o : option Emitted) : JsValue :=
  match o with
  | Some e => payload e
  | None => JUndefined
  end.

(** An engine with this event surface, whatever its RPC side does. *)
Definition engine_with_events (Rpc : Type)
  (construct : BrowserNode.ChannelRpcMethod -> JsValue -> Rpc)
  (identifier : JsValue)
  (answer : Rpc -> Clocked -> Settled JsValue * Clocked) : BrowserNode.IVectorEngine :=
  {| BrowserNode.EngineState := Clocked;
     BrowserNode.RpcRequest := Rpc;
     BrowserNode.constructRpcRequest := construct;
     BrowserNode.engine_publicIdentifier := fun _ => identifier;
     BrowserNode.engine_signerAddress := fun _ => identifier;
     BrowserNode.engine_request := answer;
     BrowserNode.engine_waitFor := waitFor |}.

(** *** A short run of events *)

Definition busy : Clocked :=
  {| now := 1000;
     upcoming := [mkEmitted 1010 "DEPOSIT_RECONCILED" (JObj [("channelAddress", JStr "0xA")]);
                  mkEmitted 1020 "CONDITIONAL_TRANSFER_CREATED"
                    (JObj [("channelAddress", JStr "0xB")]);
                  mkEmitted 1030 "CONDITIONAL_TRANSFER_CREATED"
                    (JObj [("channelAddress", JStr "0xA")])] |}.

Definition on_channel (address : string) (payload : JsValue) : bool :=
  match get payload "channelAddress" with
  | Resolved (JStr a) => String.eqb a address
  | _ => false
  end.

End EngineEvents.

(** ** The router stack's launch script ([ops/start-router.sh])

    The decisions the script takes before it writes the compose file: how
    the configuration files combine, which version and images it picks,
    and how the mnemonic and the database password reach the services,
    on a run that gets past the check for a stack already running.  What
    the script reads from outside (files, git, the environment) is input;
    the commands it runs for their effect (docker, pulling images, saving
    secrets) are left out. *)

Module StartRouter.

(** [stack="router"] *)
Definition stack : string := "router".

(** [jq -s '.[0] + .[1]'] on two objects: the pairs of both, the right
    object winning on a key they share. *)
Definition jq_add (left right : gmap string JsValue) : gmap string JsValue :=
  right ∪ left.

(** The four configuration files, as JSON objects; the two custom ones
    may not exist yet. *)
Record ConfigFiles : Type := mkConfigFiles {
  router_default : gmap string JsValue;          (* ops/config/router.default.json *)
  router_custom : option (gmap string JsValue);  (* router.config.json *)
  node_default : gmap string JsValue;            (* ops/config/node.default.json *)
  node_custom : option (gmap string JsValue);    (* node.config.json *)
}.

(** [if [[ ! -f custom ]]; then cp default custom; fi], then the file is
    read. *)
Definition copied_if_missing (default_file : gmap string JsValue)
  (custom : option (gmap string JsValue)) : gmap string JsValue :=
  match custom with
  | Some file => file
  | None => default_file
  end.

Definition router_config (files : ConfigFiles) : gmap string JsValue :=
  jq_add (router_default files) (copied_if_missing (router_default files) (router_custom files)).

Definition node_config (files : ConfigFiles) : gmap string JsValue :=
  jq_add (node_default files) (copied_if_missing (node_default files) (node_custom files)).

(** [config=$(echo "$node_config" "$router_config" | jq -s '.[0] + .[1]')] *)
Definition config (files : ConfigFiles) : gmap string JsValue :=
  jq_add (node_config files) (router_config files).

(** [jq ".$1"]: the value under the key, [null] when there is none. *)
Definition jq_get (key : string) (object : gmap string JsValue) : JsValue :=
  default JNull (object !! key).

(** [getConfig]: the value as [jq] prints it, double quotes deleted, and
    the empty string in place of [null].  How [jq] prints a value and what
    [tr -d] leaves of it is the parameter [printed]. *)
Definition getConfig (printed : JsValue -> string) (cfg : gmap string JsValue)
  (key : string) : string :=
  let value := printed (jq_get key cfg) in
  if String.eqb value "null" then "" else value.

(** What the script learns from git, the environment and [package.json]. *)
Record Surroundings : Type := mkSurroundings {
  project : string;          (* "name" of package.json *)
  branch : string;           (* git rev-parse --abbrev-ref HEAD *)
  github_ref : string;       (* $GITHUB_REF, empty when unset *)
  package_version : string;  (* "version" of package.json *)
  commit : string;           (* git rev-parse HEAD *)
  use_local_evms : bool;     (* the chain providers are the default ones *)
}.

Fixpoint last_component (acc s : string) : string :=
  match s with
  | EmptyString => acc
  | String c rest =>
      if String.eqb (String c EmptyString) "/" then last_component EmptyString rest
      else last_component (acc ++ String c EmptyString) rest
  end.

(** [${GITHUB_REF##*/}]: the longest prefix that ends in a slash is
    removed. *)
Definition after_last_slash (s : string) : string := last_component EmptyString s.

(** [${value:-fallback}] *)
Definition or_default (value fallback : string) : string :=
  if String.eqb value "" then fallback else value.

(** The release version on the prod branch, the commit's first eight
    characters elsewhere in production, ["latest"] outside production. *)
Definition version (production : string) (env : Surroundings) : string :=
  if String.eqb production "true"
  then
    if String.eqb (branch env) "prod" || String.eqb (after_last_slash (github_ref env)) "prod"
    then package_version env
    else substring 0 8 (commit env)
  else "latest".

(** [mnemonic_secret], [eth_mnemonic] and [eth_mnemonic_file], in that
    order. *)
Definition mnemonic_settings (mnemonic : string) (env : Surroundings)
  : string * string * string :=
  if use_local_evms env
  then ("",
        or_default mnemonic
          "candy maple cake sugar pudding cream honey rich smooth crumble sweet treat",
        "")
  else
    if negb (String.eqb mnemonic "")
    then ("", mnemonic, "")
    else
      let mnemonic_secret := project env ++ "_" ++ stack ++ "_mnemonic" in
      (mnemonic_secret, "", "/run/secrets/" ++ mnemonic_secret).

(** [db_secret], [pg_password] and [pg_password_file], in that order. *)
Definition database_settings (production : string) (env : Surroundings)
  : string * string * string :=
  if String.eqb production "true"
  then
    let db_secret := project env ++ "_" ++ stack ++ "_database" in
    (db_secret, "", "/run/secrets/" ++ db_secret)
  else ("", project env, "").

Definition node_image_name (production : string) (env : Surroundings) : string :=
  if String.eqb production "true"
  then project env ++ "_node:" ++ version production env
  else project env ++ "_builder:" ++ version production env.

Definition router_image_name (production : string) (env : Surroundings) : string :=
  if String.eqb production "true"
  then project env ++ "_router:" ++ version production env
  else project env ++ "_builder:" ++ version production env.

(** [node_public_port="${public_port:-8002}"] *)
Definition node_public_port (public_port : string) : string := or_default public_port "8002".

(** What the script settles on, from the configuration files and its
    surroundings. *)
Record Launch : Type := mkLaunch {
  production : string;
  launch_version : string;
  mnemonic_secret : string;
  eth_mnemonic : string;
  eth_mnemonic_file : string;
  db_secret : string;
  pg_password : string;
  pg_password_file : string;
  node_image : string;
  router_image : string;
  port : string;
  (* VECTOR_CONFIG *)
  deployed_config : gmap string JsValue;
}.

Definition launch (printed : JsValue -> string) (files : ConfigFiles)
  (chain_addresses : JsValue) (env : Surroundings) : Launch :=
  let cfg := config files in
  let production := getConfig printed cfg "production" in
  let public_port := getConfig printed cfg "port" in
  let mnemonic := getConfig printed cfg "mnemonic" in
  let '(mnemonic_secret, eth_mnemonic, eth_mnemonic_file) := mnemonic_settings mnemonic env in
  let '(db_secret, pg_password, pg_password_file) := database_settings production env in
  {| production := production;
     launch_version := version production env;
     mnemonic_secret := mnemonic_secret;
     eth_mnemonic := eth_mnemonic;
     eth_mnemonic_file := eth_mnemonic_file;
     db_secret := db_secret;
     pg_password := pg_password;
     pg_password_file := pg_password_file;
     node_image := node_image_name production env;
     router_image := router_image_name production env;
     port := node_public_port public_port;
     deployed_config :=
       if use_local_evms env
       then jq_add cfg {[ "chainAddresses" := chain_addresses ]}
       else cfg |}.

(** [chain_providers] and [default_providers]: the [chainProviders] of the
    merged configuration and of [ops/config/node.default.json], each as
    [jq] prints it once [tr -d] has deleted the newlines, carriage returns
    and spaces, which is the parameter [compact]. *)
Definition chain_providers (compact : JsValue -> string) (files : ConfigFiles) : string :=
  compact (jq_get "chainProviders" (config files)).

Definition default_providers (compact : JsValue -> string) (files : ConfigFiles) : string :=
  compact (jq_get "chainProviders" (node_default files)).

(** [use_local_evms] as the script settles it: the chain providers are
    the default ones. *)
Definition local_evms (compact : JsValue -> string) (files : ConfigFiles) : bool :=
  String.eqb (chain_providers compact files) (default_providers compact files).

(** A run of the script: [launch] with [use_local_evms] worked out from
    the configuration files, whatever [env] holds for it. *)
Definition start_router (printed compact : JsValue -> string) (files : ConfigFiles)
  (chain_addresses : JsValue) (env : Surroundings) : Launch :=
  launch printed files chain_addresses
    {| project := project env; branch := branch env; github_ref := github_ref env;
       package_version := package_version env; commit := commit env;
       use_local_evms := local_evms compact files |}.

(** [[[ -n "$name" ]]] guarding one entry of a [secrets:] list. *)
Definition if_set (name : string) : list string :=
  if negb (String.eqb name "") then [name] else [].

(** The names the compose file lists under [secrets:] for the node, the
    router and the database service, and the ones it declares for the
    stack, each in the order the script appends them. *)
Definition node_secrets (l : Launch) : list string :=
  (if_set (db_secret l) ++ if_set (mnemonic_secret l))%list.

Definition router_secrets (l : Launch) : list string := if_set (db_secret l).

Definition database_secrets (l : Launch) : list string :=
  if String.eqb (production l) "true" then [db_secret l] else [].

Definition stack_secrets (l : Launch) : list string :=
  (if_set (db_secret l) ++ if_set (mnemonic_secret l))%list.

(** The first of the files, from the most specific to the least, that
    has the key. *)
Definition first_defined (key : string) (files : ConfigFiles) : option JsValue :=
  match copied_if_missing (router_default files) (router_custom files) !! key with
  | Some v => Some v
  | None =>
      match router_default files !! key with
      | Some v => Some v
      | None =>
          match copied_if_missing (node_default files) (node_custom files) !! key with
          | Some v => Some v
          | None => node_default files !! key
          end
      end
  end.

(** *** How [jq] prints a value *)

Definition char (code : nat) : string := String (Ascii.ascii_of_nat code) EmptyString.

Definition hex_digit (n : nat) : string := substring n 1 "0123456789abcdef".

(** A character inside a JSON string: the double quote, the backslash and
    the control characters are escaped. *)
Definition escaped (c : Ascii.ascii) : string :=
  let code := Ascii.nat_of_ascii c in
  if Nat.eqb code 34 then char 92 ++ char 34
  else if Nat.eqb code 92 then char 92 ++ char 92
  else if Nat.eqb code 8 then char 92 ++ "b"
  else if Nat.eqb code 9 then char 92 ++ "t"
  else if Nat.eqb code 10 then char 92 ++ "n"
  else if Nat.eqb code 12 then char 92 ++ "f"
  else if Nat.eqb code 13 then char 92 ++ "r"
  else if Nat.ltb code 32 || Nat.eqb code 127
       then char 92 ++ "u00" ++ hex_digit (Nat.div code 16) ++ hex_digit (Nat.modulo code 16)
       else String c EmptyString.

Fixpoint escaped_all (s : string) : string :=
  match s with
  | EmptyString => EmptyString
  | String c rest => escaped c ++ escaped_all rest
  end.

Definition json_string (s : string) : string := char 34 ++ escaped_all s ++ char 34.

(** [jq '.key'] on its standard output: two spaces of indentation a level,
    one element or pair a line.  Numbers are integers of at most sixteen
    digits, which [jq] prints in full; JSON has no [undefined]. *)
Fixpoint jq_print (indent : string) (v : JsValue) : string :=
  match v with
  | JUndefined | JNull => "null"
  | JBool true => "true"
  | JBool false => "false"
  | JNum n => NilZero.string_of_int (Z.to_int n)
  | JStr s => json_string s
  | JArr [] => "[]"
  | JArr items =>
      "[" ++ char 10
      ++ String.concat ("," ++ char 10)
           (map (fun item => indent ++ "  " ++ jq_print (indent ++ "  ") item) items)
      ++ char 10 ++ indent ++ "]"
  | JObj [] => "{}"
  | JObj fields =>
      "{" ++ char 10
      ++ String.concat ("," ++ char 10)
           (map (fun field => indent ++ "  " ++ json_string (fst field) ++ ": "
                              ++ jq_print (indent ++ "  ") (snd field)) fields)
      ++ char 10 ++ indent ++ "}"
  end.

(** [tr -d]: the listed characters are deleted. *)
Fixpoint tr_d (deleted : list nat) (s : string) : string :=
  match s with
  | EmptyString => EmptyString
  | String c rest =>
      if existsb (Nat.eqb (Ascii.nat_of_ascii c)) deleted
      then tr_d deleted rest
      else String c (tr_d deleted rest)
  end.

(** What [getConfig] works on: the double quotes are deleted. *)
Definition quoted_less (v : JsValue) : string := tr_d [34%nat] (jq_print "" v).

(** What the chain providers are compared by: newlines, carriage returns
    and spaces are deleted. *)
Definition spaceless (v : JsValue) : string := tr_d [10%nat; 13%nat; 32%nat] (jq_print "" v).

(** *** A production launch on providers of its own, without a configured
    mnemonic *)

Definition shipped_files : ConfigFiles :=
  {| router_default := {[ "production" := JBool false; "port" := JNum 8009 ]};
     router_custom :=
       Some {[ "production" := JBool true;
               "chainProviders" := JObj [("1", JStr "https://mainnet.example/rpc")] ]};
     node_default := {[ "production" := JBool false; "mnemonic" := JStr "";
                        "messagingUrl" := JStr "";
                        "chainProviders" := JObj [("1337", JStr "http://evm_1337:8545")] ]};
     node_custom := None |}.

Definition on_a_feature_branch : Surroundings :=
  {| project := "vector"; branch := "feature"; github_ref := "refs/heads/feature";
     package_version := "0.0.1"; commit := "0123456789abcdef"; use_local_evms := false |}.

End StartRouter.

(** * Properties of the browser node *)

Section BrowserNodeProperties.
Import BrowserNode.
Context `{Engine : IVectorEngine}.

(** Unfolds a method body down to the engine's answer and the property
    reads, and splits on each of them. *)
Ltac unfold_async :=
  unfold try_catch, bind, request, eval, ret, throw, this_publicIdentifier.

Ltac split_answers :=
  repeat (cbn beta iota zeta;
          match goal with
          | |- context [engine_request ?r ?s] =>
              destruct (engine_request r s) as [[?res|?err] ?s'] eqn:?
          | |- context [match ?c with Resolved _ => _ | Rejected _ => _ end] =>
              destruct c eqn:?
          end).

Lemma object_of_one name k v :
  object_of [(name, [Dot k])] v =
    bind_settled (get v k) (fun x => Resolved (JObj [(name, x)])).
Proof. unfold object_of. cbn. now destruct (get v k). Qed.

Ltac split_reads :=
  repeat (cbn [bind_settled read read_fields fst snd];
          match goal with
          | |- context [get ?v ?k] => destruct (get v k) eqn:?
          | |- context [get_opt ?v ?k] => destruct (get_opt v k) eqn:?
          end);
  cbn [bind_settled read read_fields fst snd].

(** Every exposed operation has the one shape: a request, then the
    payload read off the response (or the params), every throw caught. *)
Lemma envelope_of_exposed m method params w :
  rpc_method m = Some method ->
  invoke m params w =
    (Resolved match fst (engine_request (constructRpcRequest method params) (engine w)) with
              | Rejected e => Result.fail e
              | Resolved res =>
                  match payload_of m params res with
                  | Resolved payload => Result.ok payload
                  | Rejected e => Result.fail e
                  end
              end,
     {| engine := snd (engine_request (constructRpcRequest method params) (engine w));
        sent := (sent w ++ [constructRpcRequest method params])%list |}).
Proof.
  intros Hm.
  destruct m; cbn in Hm; inversion Hm; subst method; clear Hm;
    cbn [invoke];
    unfold setup, reconcileDeposit, requestCollateral, conditionalTransfer,
      resolveTransfer, withdraw, sendDisputeChannelTx, sendDefundChannelTx,
      sendDisputeTransferTx, sendDefundTransferTx;
    unfold_async;
    match goal with
    | |- context [engine_request ?r ?s] =>
        destruct (engine_request r s) as [[res|err] s'] eqn:Hanswer
    end;
    cbn [fst snd]; try reflexivity;
    unfold payload_of, object_of, transfer_shape, withdraw_shape,
      latestUpdate_details, meta_routingId;
    split_reads; reflexivity.
Qed.

Lemma get_of_non_nullish v k :
  nullish v = false -> exists x, get v k = Resolved x.
Proof. destruct v; cbn; intros H; try discriminate H; eauto. Qed.

Lemma payload_of_ignores_params m params params' res :
  m <> M_requestCollateral -> payload_of m params' res = payload_of m params res.
Proof. intros Hm. destruct m; try reflexivity. now contradict Hm. Qed.


(** C1 (as amended): every method that promises a [Result], other than
    the two left unimplemented, resolves to a [Result.ok] or
    [Result.fail] value whatever the engine does and whatever the params
    are (for [getStateChannelByParticipants], which reads its params
    before entering its [try], whenever the params are not [undefined] or
    [null]); [internalSetup] and [sendDepositTx] reject with the [Error]
    they throw. *)
Theorem implemented_methods_resolve_to_result m params w :
  (implemented m = true ->
   (m = M_getStateChannelByParticipants -> nullish params = false) ->
   exists r : NodeResult, fst (invoke m params w) = Resolved r)
  /\ (implemented m = false ->
      exists message, invoke m params w = (Rejected (ErrorObj message), w)).
Proof.
  split.
  - intros Himpl Hparams.
    destruct (rpc_method m) as [method|] eqn:Hm.
    + rewrite (envelope_of_exposed _ _ _ _ Hm). cbn. eauto.
    + destruct m; try discriminate Hm; try discriminate Himpl; cbn [invoke].
      * eexists. reflexivity.
      * destruct (get_of_non_nullish params "counterparty" (Hparams eq_refl)) as [a Ha].
        destruct (get_of_non_nullish params "chainId" (Hparams eq_refl)) as [c Hc].
        unfold getStateChannelByParticipants. unfold_async.
        rewrite Ha, Hc. split_answers; cbn; eauto.
      * unfold getStateChannel. unfold_async. split_answers; cbn; eauto.
      * unfold getStateChannels. unfold_async. split_answers; cbn; eauto.
      * unfold getTransferByRoutingId. unfold_async. split_answers; cbn; eauto.
      * unfold getTransfersByRoutingId. unfold_async. split_answers; cbn; eauto.
      * unfold getTransfer. unfold_async. split_answers; cbn; eauto.
      * unfold getActiveTransfers. unfold_async. split_answers; cbn; eauto.
  - intros Himpl. destruct m; try discriminate Himpl; cbn; eauto.
Qed.

(** C2 (as amended): each exposed operation hands the engine exactly one
    request, built from the corresponding method and the caller's params;
    it resolves to [Result.fail] of what the engine threw, and otherwise
    to [Result.ok] of the payload read off the engine's response (for
    [requestCollateral]: off the caller's params, whatever the response),
    or to [Result.fail] of the [TypeError] of a read that threw. *)
Theorem exposed_operation_envelope m method params w :
  rpc_method m = Some method ->
  invoke m params w =
    (Resolved match fst (engine_request (constructRpcRequest method params) (engine w)) with
              | Rejected e => Result.fail e
              | Resolved res =>
                  match payload_of m params res with
                  | Resolved payload => Result.ok payload
                  | Rejected e => Result.fail e
                  end
              end,
     {| engine := snd (engine_request (constructRpcRequest method params) (engine w));
        sent := (sent w ++ [constructRpcRequest method params])%list |})
  /\ (m <> M_requestCollateral ->
      forall params' res, payload_of m params' res = payload_of m params res)
  /\ (m = M_requestCollateral ->
      forall res res', payload_of m params res' = payload_of m params res).
Proof.
  intros Hm. split; [|split].
  - now apply envelope_of_exposed.
  - intros Hne params' res. now apply payload_of_ignores_params.
  - intros -> res res'. reflexivity.
Qed.

(** C8: [createNode] resolves, for every params, to [Result.fail] of a
    [NodeError] whose reason is [MultinodeProhibitted]; the engine is left
    as it was and no request is sent. *)
Theorem createNode_is_prohibited params w :
  fst (createNode params w)
    = Resolved (Result.fail (NodeErrorObj MultinodeProhibitted (JObj [("params", params)])))
  /\ engine (snd (createNode params w)) = engine w
  /\ sent (snd (createNode params w)) = sent w.
Proof. unfold createNode, ret. cbn. auto. Qed.

Lemma map_settled_channelAddress (channels : list (list (string * JsValue))) :
  map_settled (fun chan => get chan "channelAddress") (map JObj channels)
  = Resolved (map (lookup_field "channelAddress") channels).
Proof.
  induction channels as [|fields rest IH]; cbn; [reflexivity|].
  now rewrite IH.
Qed.

(** [getStateChannels] sends one [chan_getChannelStates] request with
    [undefined] for params and, when the engine answers with an array of
    channel objects, resolves to [Result.ok] of the array of their
    [channelAddress] fields, in the same order. *)
Theorem getStateChannels_lists_addresses w (channels : list (list (string * JsValue))) :
  fst (engine_request (constructRpcRequest chan_getChannelStates JUndefined) (engine w))
  = Resolved (JArr (map JObj channels)) ->
  getStateChannels w =
    (Resolved (Result.ok (JArr (map (lookup_field "channelAddress") channels))),
     {| engine := snd (engine_request (constructRpcRequest chan_getChannelStates JUndefined)
                         (engine w));
        sent := (sent w ++ [constructRpcRequest chan_getChannelStates JUndefined])%list |}).
Proof.
  intros Hanswer. unfold getStateChannels. unfold_async.
  destruct (engine_request (constructRpcRequest chan_getChannelStates JUndefined) (engine w))
    as [answer s'].
  cbn in Hanswer. subst answer. cbn [array_map].
  rewrite map_settled_channelAddress. reflexivity.
Qed.

(** [getStateChannelByParticipants] asks the engine for the channel
    between the counterparty of the params, as alice, and the node itself,
    as bob, on the chain of the params, and passes the engine's response
    through. *)
Theorem getStateChannelByParticipants_request params w counterparty chainId :
  get params "counterparty" = Resolved counterparty ->
  get params "chainId" = Resolved chainId ->
  getStateChannelByParticipants params w =
    (Resolved match fst (engine_request
                           (constructRpcRequest chan_getChannelStateByParticipants
                              (JObj [("alice", counterparty);
                                     ("bob", publicIdentifier w);
                                     ("chainId", chainId)]))
                           (engine w)) with
              | Resolved res => Result.ok res
              | Rejected e => Result.fail e
              end,
     {| engine := snd (engine_request
                         (constructRpcRequest chan_getChannelStateByParticipants
                            (JObj [("alice", counterparty);
                                   ("bob", publicIdentifier w);
                                   ("chainId", chainId)]))
                         (engine w));
        sent := (sent w ++ [constructRpcRequest chan_getChannelStateByParticipants
                              (JObj [("alice", counterparty);
                                     ("bob", publicIdentifier w);
                                     ("chainId", chainId)])])%list |}).
Proof.
  intros Hcounterparty HchainId.
  unfold getStateChannelByParticipants. unfold_async.
  rewrite Hcounterparty, HchainId.
  now destruct (engine_request _ (engine w)) as [[res|err] s'].
Qed.

(** The getters [getStateChannel], [getTransferByRoutingId],
    [getTransfersByRoutingId], [getTransfer] and [getActiveTransfers], and
    [setup], each send one request of their own method with the caller's
    params and pass the engine's response through unchanged. *)
Theorem getters_pass_the_response_through :
  passes_through getStateChannel chan_getChannelState
  /\ passes_through getTransferByRoutingId chan_getTransferStateByRoutingId
  /\ passes_through getTransfersByRoutingId chan_getTransferStatesByRoutingId
  /\ passes_through getTransfer chan_getTransferState
  /\ passes_through getActiveTransfers chan_getActiveTransfers
  /\ passes_through setup chan_requestSetup.
Proof.
  repeat split; intros params w;
    unfold getStateChannel, getTransferByRoutingId, getTransfersByRoutingId,
      getTransfer, getActiveTransfers, setup;
    unfold_async;
    now destruct (engine_request _ (engine w)) as [[res|err] s'].
Qed.

(** ** Edge behaviour of the surface *)

Lemma get_rejects_with_type_error v k e :
  get v k = Rejected e -> is_type_error e = true.
Proof. destruct v; cbn; intros [= <-]; reflexivity. Qed.

Lemma get_opt_resolves v k : exists x, get_opt v k = Resolved x.
Proof.
  unfold get_opt. destruct (nullish v) eqn:Hnull; [eauto|].
  now apply get_of_non_nullish.
Qed.

Lemma read_rejects_with_type_error path v e :
  read v path = Rejected e -> is_type_error e = true.
Proof.
  revert v. induction path as [|[k|k] path IH]; intros v; cbn; [discriminate| |].
  - destruct (get v k) as [x|e'] eqn:Hget; cbn; [apply IH|].
    intros [= <-]. exact (get_rejects_with_type_error _ _ _ Hget).
  - destruct (get_opt_resolves v k) as [x ->]. cbn. apply IH.
Qed.

Lemma read_fields_rejects_with_type_error shape v e :
  read_fields shape v = Rejected e -> is_type_error e = true.
Proof.
  induction shape as [|[name path] shape IH]; cbn; [discriminate|].
  destruct (read v path) as [x|e'] eqn:Hread; cbn.
  - destruct (read_fields shape v) as [xs|e'']; cbn; [discriminate|].
    intros [= <-]. now apply IH.
  - intros [= <-]. exact (read_rejects_with_type_error _ _ _ Hread).
Qed.

Lemma payload_of_rejects_with_type_error m params res e :
  payload_of m params res = Rejected e -> is_type_error e = true.
Proof.
  assert (Hobj : forall shape v, object_of shape v = Rejected e -> is_type_error e = true).
  { intros shape v. unfold object_of.
    destruct (read_fields shape v) as [fields|e'] eqn:Hfields; cbn; [discriminate|].
    intros [= <-]. exact (read_fields_rejects_with_type_error _ _ _ Hfields). }
  destruct m; cbn; try discriminate; apply Hobj.
Qed.

(** When an exposed operation resolves to [Result.fail], the error is
    either the very error the engine rejected the request with, or a
    [TypeError] raised while the payload was read, after the engine had
    already answered the request with success. *)
Theorem failure_of_exposed_operation m method params w e :
  rpc_method m = Some method ->
  fst (invoke m params w) = Resolved (Result.fail e) ->
  fst (engine_request (constructRpcRequest method params) (engine w)) = Rejected e
  \/ (exists res,
        fst (engine_request (constructRpcRequest method params) (engine w)) = Resolved res
        /\ is_type_error e = true).
Proof.
  intros Hm Hrun. rewrite (envelope_of_exposed _ _ _ _ Hm) in Hrun. cbn in Hrun.
  destruct (fst (engine_request (constructRpcRequest method params) (engine w)))
    as [res|err].
  - right. exists res. split; [reflexivity|].
    destruct (payload_of m params res) as [payload|e'] eqn:Hpayload; [discriminate Hrun|].
    injection Hrun as <-. exact (payload_of_rejects_with_type_error _ _ _ _ Hpayload).
  - left. now injection Hrun as <-.
Qed.

Lemma typed_channel_reads channel fields details :
  typed_channel channel = Some (fields, details) ->
  object_of transfer_shape channel
  = Resolved (JObj [("channelAddress", lookup_field "channelAddress" fields);
                    ("transferId", lookup_field "transferId" details);
                    ("routingId", routingId_of details)]).
Proof.
  unfold typed_channel, routingId_of.
  destruct channel as [| | | | | |cfields]; try discriminate.
  destruct (lookup_field "latestUpdate" cfields) as [| | | | | |update] eqn:Hupdate;
    try discriminate.
  destruct (lookup_field "details" update) as [| | | | | |dfields] eqn:Hdetails;
    try discriminate.
  intros [= <- <-].
  unfold object_of, transfer_shape. cbn. rewrite Hupdate. cbn. rewrite Hdetails. cbn.
  now destruct (lookup_field "meta" dfields).
Qed.

(** On a channel of the declared shape (an object whose [latestUpdate] is
    an object whose [details] is an object), [conditionalTransfer] and
    [resolveTransfer] always succeed: the payload carries the channel's
    [channelAddress], the details' [transferId], and the [routingId] of the
    details' [meta], which is [undefined] when there is no [meta]. *)
Theorem transfer_on_typed_channel m method params w channel fields details :
  m = M_conditionalTransfer \/ m = M_resolveTransfer ->
  rpc_method m = Some method ->
  fst (engine_request (constructRpcRequest method params) (engine w)) = Resolved channel ->
  typed_channel channel = Some (fields, details) ->
  fst (invoke m params w)
  = Resolved (Result.ok (JObj [("channelAddress", lookup_field "channelAddress" fields);
                               ("transferId", lookup_field "transferId" details);
                               ("routingId", routingId_of details)])).
Proof.
  intros Hwhich Hm Hanswer Htyped.
  rewrite (envelope_of_exposed _ _ _ _ Hm). cbn [fst]. rewrite Hanswer.
  assert (Hshape : payload_of m params channel = object_of transfer_shape channel)
    by (destruct Hwhich; subst m; reflexivity).
  now rewrite Hshape, (typed_channel_reads _ _ _ Htyped).
Qed.

(** When the engine answers a withdrawal with an object whose [channel]
    has the declared shape, [withdraw] succeeds with the channel's
    [channelAddress], the [transferId] of its latest update's details and
    the response's [transactionHash] ([undefined] when the response has
    none). *)
Theorem withdraw_on_typed_response params w fields details rfields :
  fst (engine_request (constructRpcRequest chan_withdraw params) (engine w))
  = Resolved (JObj rfields) ->
  typed_channel (lookup_field "channel" rfields) = Some (fields, details) ->
  fst (withdraw params w)
  = Resolved (Result.ok (JObj [("channelAddress", lookup_field "channelAddress" fields);
                               ("transferId", lookup_field "transferId" details);
                               ("transactionHash", lookup_field "transactionHash" rfields)])).
Proof.
  intros Hanswer Htyped.
  change (withdraw params w) with (invoke M_withdraw params w).
  rewrite (envelope_of_exposed M_withdraw chan_withdraw _ _ eq_refl). cbn [fst].
  rewrite Hanswer. cbn [payload_of].
  unfold typed_channel in Htyped.
  destruct (lookup_field "channel" rfields) as [| | | | | |cfields] eqn:Hchannel;
    try discriminate.
  destruct (lookup_field "latestUpdate" cfields) as [| | | | | |update] eqn:Hupdate;
    try discriminate.
  destruct (lookup_field "details" update) as [| | | | | |dfields] eqn:Hdetails;
    try discriminate.
  injection Htyped as <- <-.
  unfold object_of, withdraw_shape. cbn.
  rewrite Hchannel. cbn. rewrite Hupdate. cbn. now rewrite Hdetails.
Qed.

(** A dispute-submission call succeeds on every answer of the engine other
    than [undefined] and [null], with [txHash] set to the answer's
    [transactionHash] ([undefined] if it has none); on [undefined] and
    [null] it fails with a [TypeError]. *)
Theorem dispute_submission_payload m method params w res :
  submits_dispute m = true ->
  rpc_method m = Some method ->
  fst (engine_request (constructRpcRequest method params) (engine w)) = Resolved res ->
  (nullish res = false ->
   exists hash, get res "transactionHash" = Resolved hash
                /\ fst (invoke m params w) = Resolved (Result.ok (JObj [("txHash", hash)])))
  /\ (nullish res = true ->
      exists message,
        fst (invoke m params w) = Resolved (Result.fail (TypeErrorObj message))).
Proof.
  intros Hdispute Hm Hanswer.
  rewrite (envelope_of_exposed _ _ _ _ Hm). cbn [fst]. rewrite Hanswer.
  assert (Hshape : payload_of m params res
                   = object_of [("txHash", [Dot "transactionHash"])] res)
    by (destruct m; try discriminate Hdispute; reflexivity).
  rewrite Hshape, object_of_one. split; intros Hnull.
  - destruct (get_of_non_nullish res "transactionHash" Hnull) as [hash Hhash].
    exists hash. now rewrite Hhash.
  - destruct res; try discriminate Hnull; cbn; eauto.
Qed.

(** No method sends more than one request: the log of requests only grows,
    by one entry at most, and a method that sent none left the engine as it
    was. *)
Theorem at_most_one_request m params w :
  exists extra,
    sent (snd (invoke m params w)) = (sent w ++ extra)%list
    /\ (length extra <= 1)%nat
    /\ (extra = [] -> engine (snd (invoke m params w)) = engine w).
Proof.
  assert (Hnone : forall w' : World,
             w' = w ->
             exists extra, sent w' = (sent w ++ extra)%list /\ (length extra <= 1)%nat
                           /\ (extra = [] -> engine w' = engine w)).
  { intros w' ->. exists []. rewrite app_nil_r. cbn. auto. }
  assert (Hone : forall rpc s',
             exists extra,
               sent {| engine := s'; sent := (sent w ++ [rpc])%list |} = (sent w ++ extra)%list
               /\ (length extra <= 1)%nat
               /\ (extra = [] ->
                   engine {| engine := s'; sent := (sent w ++ [rpc])%list |} = engine w)).
  { intros rpc s'. exists [rpc]. cbn. repeat split; [lia | discriminate]. }
  destruct (rpc_method m) as [method|] eqn:Hm.
  - rewrite (envelope_of_exposed _ _ _ _ Hm). cbn [snd]. apply Hone.
  - destruct m; try discriminate Hm; cbn [invoke].
    + apply Hnone. reflexivity.
    + unfold getStateChannelByParticipants. unfold_async.
      destruct (get params "counterparty"); [|now apply Hnone].
      destruct (get params "chainId"); [|now apply Hnone].
      destruct (engine_request _ (engine w)) as [[res|err] s']; apply Hone.
    + unfold getStateChannel. unfold_async.
      destruct (engine_request _ (engine w)) as [[res|err] s']; apply Hone.
    + unfold getStateChannels. unfold_async.
      destruct (engine_request _ (engine w)) as [[res|err] s']; cbn; [|apply Hone].
      destruct (array_map res _); apply Hone.
    + unfold getTransferByRoutingId. unfold_async.
      destruct (engine_request _ (engine w)) as [[res|err] s']; apply Hone.
    + unfold getTransfersByRoutingId. unfold_async.
      destruct (engine_request _ (engine w)) as [[res|err] s']; apply Hone.
    + unfold getTransfer. unfold_async.
      destruct (engine_request _ (engine w)) as [[res|err] s']; apply Hone.
    + unfold getActiveTransfers. unfold_async.
      destruct (engine_request _ (engine w)) as [[res|err] s']; apply Hone.
    + apply Hnone. reflexivity.
    + apply Hnone. reflexivity.
Qed.

(** Awaiting two exposed operations one after the other: the second runs
    whatever the first resolved to, since a failure is a value; the engine
    sees the two requests in that order, the second in the state the first
    left it in. *)
Theorem exposed_operations_in_sequence m1 method1 params1 m2 method2 params2 w :
  rpc_method m1 = Some method1 ->
  rpc_method m2 = Some method2 ->
  exists r1 r2 w',
    bind (invoke m1 params1) (fun r1 => bind (invoke m2 params2) (fun r2 => ret (r1, r2))) w
    = (Resolved (r1, r2), w')
    /\ fst (invoke m1 params1 w) = Resolved r1
    /\ sent w' = (sent w ++ [constructRpcRequest method1 params1;
                            constructRpcRequest method2 params2])%list
    /\ engine w' = snd (engine_request (constructRpcRequest method2 params2)
                          (snd (engine_request (constructRpcRequest method1 params1)
                                  (engine w)))).
Proof.
  intros Hm1 Hm2. unfold bind, ret.
  rewrite (envelope_of_exposed _ _ _ _ Hm1).
  rewrite (envelope_of_exposed _ _ _ _ Hm2). cbn [engine sent fst snd].
  do 3 eexists. split; [reflexivity|]. cbn [engine sent fst snd].
  split; [reflexivity|]. split; [|reflexivity].
  now rewrite <- app_assoc.
Qed.

Lemma map_settled_channelAddress_ok items :
  Forall (fun chan => nullish chan = false) items ->
  exists addresses,
    map_settled (fun chan => get chan "channelAddress") items = Resolved addresses.
Proof.
  induction 1 as [|chan items Hchan _ [addresses IH]]; cbn; [eauto|].
  destruct (get_of_non_nullish chan "channelAddress" Hchan) as [a ->]. cbn.
  rewrite IH. cbn. eauto.
Qed.

Lemma map_settled_channelAddress_inv items addresses :
  map_settled (fun chan => get chan "channelAddress") items = Resolved addresses ->
  Forall (fun chan => nullish chan = false) items.
Proof.
  revert addresses. induction items as [|chan items IH]; intros addresses; cbn;
    [constructor|].
  destruct (get chan "channelAddress") as [a|e] eqn:Hget; cbn; [|discriminate].
  destruct (map_settled _ items) as [rest|e] eqn:Hrest; cbn; [|discriminate].
  intros _. constructor; [|now apply (IH rest)].
  destruct chan; try reflexivity; discriminate Hget.
Qed.

(** [getStateChannels] succeeds exactly when the engine's answer is an
    array none of whose elements is [undefined] or [null]; on any other
    answer it fails, with a [TypeError]. *)
Theorem getStateChannels_succeeds_iff w res :
  fst (engine_request (constructRpcRequest chan_getChannelStates JUndefined) (engine w))
  = Resolved res ->
  ((exists addresses, fst (getStateChannels w) = Resolved (Result.ok addresses))
   <-> (exists items, res = JArr items /\ Forall (fun chan => nullish chan = false) items))
  /\ ((forall addresses, fst (getStateChannels w) <> Resolved (Result.ok addresses)) ->
      exists e, fst (getStateChannels w) = Resolved (Result.fail e)
                /\ is_type_error e = true).
Proof.
  intros Hanswer. unfold getStateChannels. unfold_async.
  destruct (engine_request (constructRpcRequest chan_getChannelStates JUndefined) (engine w))
    as [answer s']. cbn in Hanswer. subst answer. cbn [fst].
  destruct res as [| | | | |items|fields]; cbn [array_map bind_settled fst].
  1-5, 7: split;
    [split; [intros [? [=]] | intros (? & [=] & _)]
    | intros _; eexists; split; reflexivity].
  destruct (map_settled (fun chan => get chan "channelAddress") items)
    as [addresses|e] eqn:Hmap; cbn [bind_settled fst].
  - split.
    + split; [|eauto]. intros _. exists items. split; [reflexivity|].
      exact (map_settled_channelAddress_inv _ _ Hmap).
    + intros Hnot. now destruct (Hnot (JArr addresses)).
  - split.
    + split; [intros [? [=]]|].
      intros (items' & [= <-] & Hall).
      destruct (map_settled_channelAddress_ok _ Hall) as [addresses Hok]. congruence.
    + intros _. exists e. split; [reflexivity|].
      clear - Hmap. revert e Hmap. induction items as [|chan items IH]; intros e; cbn;
        [discriminate|].
      destruct (get chan "channelAddress") as [a|e'] eqn:Hget; cbn.
      * destruct (map_settled _ items) as [rest|e'']; cbn; [discriminate|].
        intros [= <-]. now apply IH.
      * intros [= <-]. exact (get_rejects_with_type_error _ _ _ Hget).
Qed.

(** The promise of an implemented method rejects in one case only:
    [getStateChannelByParticipants] called with [undefined] or [null] for
    params.  The rejection is the [TypeError] of reading the params, and
    nothing was sent to the engine. *)
Theorem implemented_method_rejects_only_on_missing_params m params w e :
  implemented m = true ->
  fst (invoke m params w) = Rejected e ->
  m = M_getStateChannelByParticipants
  /\ nullish params = true
  /\ is_type_error e = true
  /\ snd (invoke m params w) = w.
Proof.
  intros Himpl Hrun.
  destruct (rpc_method m) as [method|] eqn:Hm.
  { rewrite (envelope_of_exposed _ _ _ _ Hm) in Hrun. discriminate Hrun. }
  destruct m; try discriminate Hm; try discriminate Himpl; cbn [invoke] in *.
  - discriminate Hrun.
  - split; [reflexivity|].
    revert Hrun. unfold getStateChannelByParticipants. unfold_async.
    destruct (nullish params) eqn:Hnull.
    + destruct params; try discriminate Hnull; cbn; intros [= <-]; auto.
    + destruct (get_of_non_nullish params "counterparty" Hnull) as [a ->].
      destruct (get_of_non_nullish params "chainId" Hnull) as [c ->].
      now destruct (engine_request _ (engine w)) as [[res|err] s'].
  - revert Hrun. unfold getStateChannel. unfold_async.
    now destruct (engine_request _ (engine w)) as [[res|err] s'].
  - revert Hrun. unfold getStateChannels. unfold_async.
    destruct (engine_request _ (engine w)) as [[res|err] s']; cbn; [|discriminate].
    now destruct (array_map res _).
  - revert Hrun. unfold getTransferByRoutingId. unfold_async.
    now destruct (engine_request _ (engine w)) as [[res|err] s'].
  - revert Hrun. unfold getTransfersByRoutingId. unfold_async.
    now destruct (engine_request _ (engine w)) as [[res|err] s'].
  - revert Hrun. unfold getTransfer. unfold_async.
    now destruct (engine_request _ (engine w)) as [[res|err] s'].
  - revert Hrun. unfold getActiveTransfers. unfold_async.
    now destruct (engine_request _ (engine w)) as [[res|err] s'].
Qed.

(** ** Success as the caller sees it *)







End BrowserNodeProperties.

(** ** The browser node on a scripted engine *)

Section BrowserNodeExamples.
Import BrowserNode.

Example conditionalTransfer_on_script :
  conditionalTransfer transfer_params (answering [Resolved channel_with_transfer])
  = (Resolved (Result.ok transfer_payload),
     (@mkWorld scripted [] [(chan_createTransfer, transfer_params)])).
Proof. reflexivity. Qed.

(** A response without [latestUpdate] makes the read throw inside the
    [try]: the operation fails with the [TypeError]. *)
Example conditionalTransfer_on_malformed_response :
  fst (conditionalTransfer transfer_params
         (answering [Resolved (JObj [("channelAddress", JStr "0xchannel")])]))
  = Resolved (Result.fail (TypeErrorObj "Cannot read property details")).
Proof. reflexivity. Qed.

Example getStateChannels_on_script :
  fst (getStateChannels
         (answering [Resolved (JArr [channel_with_transfer;
                                     JObj [("channelAddress", JStr "0xother")]])]))
  = Resolved (Result.ok (JArr [JStr "0xchannel"; JStr "0xother"])).
Proof. reflexivity. Qed.

Example getStateChannelByParticipants_without_params :
  fst (getStateChannelByParticipants JUndefined (answering []))
  = Rejected (TypeErrorObj "Cannot read property counterparty").
Proof. reflexivity. Qed.

(** C1, refuted as stated: [internalSetup] is a method of the surface and
    its promise rejects. *)
Lemma internalSetup_throws : ~ never_throws (Engine := scripted) M_internalSetup.
Proof.
  intros Hnever.
  destruct (Hnever JUndefined (answering [])) as [r Hr].
  cbn in Hr. discriminate Hr.
Qed.

Lemma implemented_methods_resolve_to_result_witness :
  (implemented M_getStateChannelByParticipants = true /\
   nullish transfer_params = false /\
   exists r : NodeResult,
     fst (invoke M_getStateChannelByParticipants transfer_params (answering []))
     = Resolved r)
  /\ (implemented M_sendDepositTx = false /\
      exists message,
        invoke M_sendDepositTx transfer_params (answering [])
        = (Rejected (ErrorObj message), answering [])).
Proof.
  split; (split; [reflexivity|]).
  - split; [reflexivity|].
    apply (proj1 (implemented_methods_resolve_to_result (Engine := scripted)
                    M_getStateChannelByParticipants transfer_params (answering [])));
      reflexivity.
  - apply (proj2 (implemented_methods_resolve_to_result (Engine := scripted)
                    M_sendDepositTx transfer_params (answering [])));
      reflexivity.
Defined.

(** C2, refuted as stated: the payload of [requestCollateral] follows the
    params while the engine's response stays the same, so it is no
    projection of that response. *)
Lemma requestCollateral_is_no_projection :
  ~ wraps_engine_response (Engine := scripted) M_requestCollateral chan_requestCollateral.
Proof.
  intros [projection Hwraps].
  pose proof (Hwraps (JObj [("channelAddress", JStr "0xA")])
                (answering [Resolved JUndefined])) as [_ HA].
  pose proof (Hwraps (JObj [("channelAddress", JStr "0xB")])
                (answering [Resolved JUndefined])) as [_ HB].
  cbn in HA, HB.
  rewrite <- HB in HA. discriminate HA.
Qed.

Lemma exposed_operation_envelope_witness :
  rpc_method M_withdraw = Some chan_withdraw /\
  invoke M_withdraw transfer_params
    (answering [Resolved (JObj [("channel", channel_with_transfer);
                                ("transactionHash", JStr "0xhash")])])
  = (Resolved (Result.ok (JObj [("channelAddress", JStr "0xchannel");
                                ("transferId", JStr "0xtransfer");
                                ("transactionHash", JStr "0xhash")])),
     (@mkWorld scripted [] [(chan_withdraw, transfer_params)])).
Proof.
  split; [reflexivity|].
  exact (proj1 (exposed_operation_envelope (Engine := scripted) M_withdraw chan_withdraw
                  transfer_params
                  (answering [Resolved (JObj [("channel", channel_with_transfer);
                                              ("transactionHash", JStr "0xhash")])])
                  eq_refl)).
Defined.







Lemma getStateChannels_lists_addresses_witness :
  getStateChannels
    (answering [Resolved (JArr (map JObj [[("channelAddress", JStr "0xA"); ("nonce", JNum 2)];
                                          [("nonce", JNum 1)]]))])
  = (Resolved (Result.ok (JArr [JStr "0xA"; JUndefined])),
     @mkWorld scripted [] [(chan_getChannelStates, JUndefined)]).
Proof.
  apply (getStateChannels_lists_addresses (Engine := scripted)
           (answering [Resolved (JArr (map JObj [[("channelAddress", JStr "0xA");
                                                  ("nonce", JNum 2)];
                                                 [("nonce", JNum 1)]]))])
           [[("channelAddress", JStr "0xA"); ("nonce", JNum 2)]; [("nonce", JNum 1)]]).
  reflexivity.
Defined.

Lemma getStateChannelByParticipants_request_witness :
  fst (getStateChannelByParticipants
         (JObj [("counterparty", JStr "vector5alice"); ("chainId", JNum 1337)])
         (answering [Resolved JUndefined]))
  = Resolved (Result.ok JUndefined)
  /\ sent (snd (getStateChannelByParticipants
                  (JObj [("counterparty", JStr "vector5alice"); ("chainId", JNum 1337)])
                  (answering [Resolved JUndefined])))
     = [(chan_getChannelStateByParticipants,
         JObj [("alice", JStr "vector5alice");
               ("bob", JStr "vector8browser");
               ("chainId", JNum 1337)])].
Proof.
  rewrite (getStateChannelByParticipants_request (Engine := scripted)
             (JObj [("counterparty", JStr "vector5alice"); ("chainId", JNum 1337)])
             (answering [Resolved JUndefined])
             (JStr "vector5alice") (JNum 1337) eq_refl eq_refl).
  split; reflexivity.
Defined.

Lemma failure_of_exposed_operation_witness :
  fst (engine_request (constructRpcRequest chan_createTransfer transfer_params)
         (engine (answering [Resolved (JObj [])])))
  = Rejected (TypeErrorObj "Cannot read property details")
  \/ (exists res,
        fst (engine_request (constructRpcRequest chan_createTransfer transfer_params)
               (engine (answering [Resolved (JObj [])]))) = Resolved res
        /\ is_type_error (TypeErrorObj "Cannot read property details") = true).
Proof.
  apply (failure_of_exposed_operation (Engine := scripted) M_conditionalTransfer
           chan_createTransfer transfer_params (answering [Resolved (JObj [])])
           (TypeErrorObj "Cannot read property details"));
    reflexivity.
Defined.

Lemma transfer_on_typed_channel_witness :
  fst (invoke M_resolveTransfer transfer_params (answering [Resolved channel_after_resolve]))
  = Resolved (Result.ok (JObj [("channelAddress", JStr "0xchannel");
                               ("transferId", JStr "0xtransfer");
                               ("routingId", JUndefined)])).
Proof.
  apply (transfer_on_typed_channel (Engine := scripted) M_resolveTransfer
           chan_resolveTransfer transfer_params (answering [Resolved channel_after_resolve])
           channel_after_resolve
           [("channelAddress", JStr "0xchannel");
            ("latestUpdate",
              JObj [("type", JStr "resolve");
                    ("details", JObj [("transferId", JStr "0xtransfer")])])]
           [("transferId", JStr "0xtransfer")]);
    [now right | reflexivity | reflexivity | reflexivity].
Defined.

Lemma withdraw_on_typed_response_witness :
  fst (withdraw transfer_params
         (answering [Resolved (JObj [("channel", channel_after_resolve)])]))
  = Resolved (Result.ok (JObj [("channelAddress", JStr "0xchannel");
                               ("transferId", JStr "0xtransfer");
                               ("transactionHash", JUndefined)])).
Proof.
  apply (withdraw_on_typed_response (Engine := scripted) transfer_params
           (answering [Resolved (JObj [("channel", channel_after_resolve)])])
           [("channelAddress", JStr "0xchannel");
            ("latestUpdate",
              JObj [("type", JStr "resolve");
                    ("details", JObj [("transferId", JStr "0xtransfer")])])]
           [("transferId", JStr "0xtransfer")]
           [("channel", channel_after_resolve)]);
    reflexivity.
Defined.

Lemma dispute_submission_payload_witness :
  (exists hash,
      get (JStr "0xhash") "transactionHash" = Resolved hash
      /\ fst (invoke M_sendDisputeChannelTx transfer_params
                (answering [Resolved (JStr "0xhash")]))
         = Resolved (Result.ok (JObj [("txHash", hash)])))
  /\ (exists message,
         fst (invoke M_sendDefundTransferTx transfer_params (answering [Resolved JNull]))
         = Resolved (Result.fail (TypeErrorObj message))).
Proof.
  split.
  - apply (proj1 (dispute_submission_payload (Engine := scripted) M_sendDisputeChannelTx
                    chan_dispute transfer_params (answering [Resolved (JStr "0xhash")])
                    (JStr "0xhash") eq_refl eq_refl eq_refl)).
    reflexivity.
  - apply (proj2 (dispute_submission_payload (Engine := scripted) M_sendDefundTransferTx
                    chan_defundTransfer transfer_params (answering [Resolved JNull])
                    JNull eq_refl eq_refl eq_refl)).
    reflexivity.
Defined.

Lemma exposed_operations_in_sequence_witness :
  exists r1 r2 w',
    bind (invoke M_conditionalTransfer transfer_params)
      (fun r1 => bind (invoke M_withdraw transfer_params) (fun r2 => ret (r1, r2)))
      (answering [Rejected (ErrorObj "offline"); Resolved JUndefined])
    = (Resolved (r1, r2), w')
    /\ fst (invoke M_conditionalTransfer transfer_params
              (answering [Rejected (ErrorObj "offline"); Resolved JUndefined]))
       = Resolved r1
    /\ sent w'
       = (sent (answering [Rejected (ErrorObj "offline"); Resolved JUndefined])
          ++ [constructRpcRequest chan_createTransfer transfer_params;
              constructRpcRequest chan_withdraw transfer_params])%list
    /\ engine w'
       = snd (engine_request (constructRpcRequest chan_withdraw transfer_params)
                (snd (engine_request (constructRpcRequest chan_createTransfer transfer_params)
                        (engine (answering [Rejected (ErrorObj "offline");
                                            Resolved JUndefined]))))).
Proof.
  apply (exposed_operations_in_sequence (Engine := scripted) M_conditionalTransfer
           chan_createTransfer transfer_params M_withdraw chan_withdraw transfer_params
           (answering [Rejected (ErrorObj "offline"); Resolved JUndefined]));
    reflexivity.
Defined.

Lemma getStateChannels_succeeds_iff_witness :
  exists addresses,
    fst (getStateChannels (answering [Resolved (JArr [JObj []; JStr "0xA"])]))
    = Resolved (Result.ok addresses).
Proof.
  apply (proj1 (getStateChannels_succeeds_iff (Engine := scripted)
                  (answering [Resolved (JArr [JObj []; JStr "0xA"])])
                  (JArr [JObj []; JStr "0xA"]) eq_refl)).
  exists [JObj []; JStr "0xA"]. split; [reflexivity|].
  repeat constructor.
Defined.

Lemma implemented_method_rejects_only_on_missing_params_witness :
  M_getStateChannelByParticipants = M_getStateChannelByParticipants
  /\ nullish JNull = true
  /\ is_type_error (TypeErrorObj "Cannot read property counterparty") = true
  /\ snd (invoke M_getStateChannelByParticipants JNull (answering [])) = answering [].
Proof.
  apply (implemented_method_rejects_only_on_missing_params (Engine := scripted)
           M_getStateChannelByParticipants JNull (answering [])
           (TypeErrorObj "Cannot read property counterparty"));
    reflexivity.
Defined.

End BrowserNodeExamples.

(** * Properties of LibERC20 *)

Section LibERC20Properties.
Import LibERC20.
Context `{Evm : EVM}.

Lemma wrapCall_gas_no_code assetId callData gas s :
  isContract assetId s = false ->
  wrapCall_gas assetId callData gas s = Reverted (ErrorString "LibERC20: NO_CODE").
Proof. intros Hcode. unfold wrapCall_gas. now rewrite Hcode. Qed.

Lemma wrapCall_gas_call_failed assetId callData gas s returnData s' :
  isContract assetId s = true ->
  call assetId gas callData s = ((false, returnData), s') ->
  wrapCall_gas assetId callData gas s = Reverted (Bubbled returnData).
Proof. intros Hcode Hcall. unfold wrapCall_gas. now rewrite Hcode, Hcall. Qed.

(** After a successful call: [true] on empty return data, the decoded
    boolean otherwise, and a revert where the data does not decode. *)
Lemma wrapCall_gas_call_succeeded assetId callData gas s returnData s' :
  isContract assetId s = true ->
  call assetId gas callData s = ((true, returnData), s') ->
  wrapCall_gas assetId callData gas s =
    match returnData with
    | [] => Returned true s'
    | _ :: _ => match abi_decode_bool returnData with
                | Some b => Returned b s'
                | None => Reverted DecodingFailed
                end
    end.
Proof.
  intros Hcode Hcall. unfold wrapCall_gas. rewrite Hcode, Hcall. cbn.
  now destruct returnData.
Qed.

(** C10: [wrapCall] reverts with "LibERC20: NO_CODE" when [assetId] is not
    a contract, reverts when the token call fails, and otherwise returns
    [true] exactly when the return data is empty or decodes to the
    boolean [true]; [approve], [transferFrom] and [transfer] are
    [wrapCall] on the encoding of the corresponding ERC20 call. *)
Theorem wrapCall_contract assetId callData gas s :
  (isContract assetId s = false ->
   wrapCall_gas assetId callData gas s = Reverted (ErrorString "LibERC20: NO_CODE"))
  /\ (isContract assetId s = true ->
      fst (fst (call assetId gas callData s)) = false ->
      exists r, wrapCall_gas assetId callData gas s = Reverted r)
  /\ (isContract assetId s = true ->
      fst (fst (call assetId gas callData s)) = true ->
      ((exists s', wrapCall_gas assetId callData gas s = Returned true s')
       <-> (snd (fst (call assetId gas callData s)) = []
            \/ abi_decode_bool (snd (fst (call assetId gas callData s))) = Some true)))
  /\ wrapCall assetId callData s = wrapCall_gas assetId callData (gasleft s) s
  /\ (forall spender amount,
        approve assetId spender amount s =
          wrapCall assetId
            (abi_encodeWithSignature "approve(address,uint256)"
               [AbiAddress spender; AbiUint256 amount]) s)
  /\ (forall sender recipient amount,
        transferFrom assetId sender recipient amount s =
          wrapCall assetId
            (abi_encodeWithSignature "transferFrom(address,address,uint256)"
               [AbiAddress sender; AbiAddress recipient; AbiUint256 amount]) s)
  /\ (forall recipient amount,
        transfer assetId recipient amount s =
          wrapCall assetId
            (abi_encodeWithSignature "transfer(address,uint256)"
               [AbiAddress recipient; AbiUint256 amount]) s).
Proof.
  split; [apply wrapCall_gas_no_code|].
  split.
  { intros Hcode Hfailed.
    destruct (call assetId gas callData s) as [[success returnData] s'] eqn:Hcall.
    cbn in Hfailed. subst success.
    exists (Bubbled returnData). now apply (wrapCall_gas_call_failed _ _ _ _ _ s'). }
  split.
  { intros Hcode Hok.
    destruct (call assetId gas callData s) as [[success returnData] s'] eqn:Hcall.
    cbn in Hok |- *. subst success.
    rewrite (wrapCall_gas_call_succeeded _ _ _ _ _ _ Hcode Hcall).
    split.
    - intros [s'' Hret].
      destruct returnData as [|b rest]; [now left | right].
      destruct (abi_decode_bool (b :: rest)) as [[|]|]; congruence.
    - intros [-> | Hdecoded]; [now exists s'|].
      destruct returnData; [discriminate Hdecoded|].
      rewrite Hdecoded. now exists s'. }
  repeat split; reflexivity.
Qed.

(** After a successful call that returned data, [wrapCall] returns what
    the data decodes to: [false] for a zero word, and a revert where the
    data is shorter than a word or its first word is neither 0 nor 1. *)
Theorem wrapCall_after_successful_call assetId callData gas s returnData s' :
  isContract assetId s = true ->
  call assetId gas callData s = ((true, returnData), s') ->
  returnData <> [] ->
  wrapCall_gas assetId callData gas s =
    match abi_decode_bool returnData with
    | Some b => Returned b s'
    | None => Reverted DecodingFailed
    end.
Proof.
  intros Hcode Hcall Hdata.
  rewrite (wrapCall_gas_call_succeeded _ _ _ _ _ _ Hcode Hcall).
  destruct returnData; [now contradict Hdata | reflexivity].
Qed.

(** [wrapCall] returns only after a successful call to a contract: the
    state it returns in is the one that call left, and the value is [true]
    on empty return data and the decoded boolean otherwise. *)
Theorem wrapCall_returns_only_after_successful_call assetId callData gas s b s' :
  wrapCall_gas assetId callData gas s = Returned b s' ->
  isContract assetId s = true
  /\ exists returnData,
       call assetId gas callData s = ((true, returnData), s')
       /\ (returnData = [] /\ b = true
           \/ returnData <> [] /\ abi_decode_bool returnData = Some b).
Proof.
  unfold wrapCall_gas.
  destruct (isContract assetId s); cbn [negb]; [|discriminate].
  destruct (call assetId gas callData s) as [[success returnData] s''].
  destruct success; cbn [revertIfCallFailed]; [|discriminate].
  destruct returnData as [|byte rest]; cbn [length Nat.eqb].
  - intros [= <- <-]. split; [reflexivity|]. exists []. auto.
  - destruct (abi_decode_bool (byte :: rest)) as [decoded|] eqn:Hdecoded; [|discriminate].
    intros [= <- <-]. split; [reflexivity|]. exists (byte :: rest).
    split; [reflexivity|]. right. split; [discriminate | exact Hdecoded].
Qed.

(** On an asset that is not a contract, [approve], [transferFrom] and both
    [transfer]s revert with "LibERC20: NO_CODE", whatever their other
    arguments. *)
Theorem erc20_calls_need_a_contract assetId s :
  isContract assetId s = false ->
  (forall spender amount,
      approve assetId spender amount s = Reverted (ErrorString "LibERC20: NO_CODE"))
  /\ (forall sender recipient amount,
         transferFrom assetId sender recipient amount s
         = Reverted (ErrorString "LibERC20: NO_CODE"))
  /\ (forall recipient amount,
         transfer assetId recipient amount s = Reverted (ErrorString "LibERC20: NO_CODE"))
  /\ (forall recipient amount gas,
         transfer_gas assetId recipient amount gas s
         = Reverted (ErrorString "LibERC20: NO_CODE")).
Proof.
  intros Hcode. repeat split; intros;
    unfold approve, transferFrom, transfer, transfer_gas, wrapCall;
    now apply wrapCall_gas_no_code.
Qed.

End LibERC20Properties.

(** ** LibERC20 against a token that answers as told *)

Section LibERC20Examples.
Import LibERC20.

Example wrapCall_on_true :
  wrapCall (Evm := one_token) 1 [] (true, word Byte.x01)
  = Returned (Evm := one_token) true (true, word Byte.x01).
Proof. reflexivity. Qed.

Example wrapCall_on_false :
  wrapCall (Evm := one_token) 1 [] (true, word Byte.x00)
  = Returned (Evm := one_token) false (true, word Byte.x00).
Proof. reflexivity. Qed.

Example wrapCall_on_no_return_data :
  wrapCall (Evm := one_token) 1 [] (true, []) = Returned (Evm := one_token) true (true, []).
Proof. reflexivity. Qed.

(** Return data that is neither empty nor a boolean word: the decoder
    reverts, so nothing is returned. *)
Example wrapCall_on_short_return_data :
  wrapCall (Evm := one_token) 1 [] (true, [Byte.x01]) = Reverted (Evm := one_token) DecodingFailed.
Proof. reflexivity. Qed.

Example wrapCall_on_other_word :
  wrapCall (Evm := one_token) 1 [] (true, word Byte.x02) = Reverted (Evm := one_token) DecodingFailed.
Proof. reflexivity. Qed.

Example wrapCall_on_failed_call :
  wrapCall (Evm := one_token) 1 [] (false, [Byte.x08]) = Reverted (Evm := one_token) (Bubbled [Byte.x08]).
Proof. reflexivity. Qed.

Lemma wrapCall_contract_witness :
  (isContract (EVM := one_token) 2 (true, []) = false /\
   wrapCall_gas (Evm := one_token) 2 [] 5000 (true, [])
   = Reverted (Evm := one_token) (ErrorString "LibERC20: NO_CODE"))
  /\ (isContract (EVM := one_token) 1 (true, word Byte.x01) = true /\
      exists s', wrapCall_gas (Evm := one_token) 1 [] 5000 (true, word Byte.x01)
                 = Returned true s').
Proof.
  split; (split; [reflexivity|]).
  - apply (proj1 (wrapCall_contract (Evm := one_token) 2 [] 5000 (true, []))).
    reflexivity.
  - apply (proj1 (proj2 (proj2 (wrapCall_contract (Evm := one_token) 1 [] 5000
                                  (true, word Byte.x01))))).
    + reflexivity.
    + reflexivity.
    + right. reflexivity.
Defined.

Lemma wrapCall_after_successful_call_witness :
  wrapCall_gas (Evm := one_token) 1 [] 5000 (true, [Byte.x01])
  = Reverted (Evm := one_token) DecodingFailed.
Proof.
  apply (wrapCall_after_successful_call (Evm := one_token) 1 [] 5000 (true, [Byte.x01])
           [Byte.x01] (true, [Byte.x01]));
    [reflexivity | reflexivity | discriminate].
Defined.

Lemma wrapCall_returns_only_after_successful_call_witness :
  isContract (EVM := one_token) 1 (true, word Byte.x00) = true
  /\ exists returnData,
       call (EVM := one_token) 1 5000 [] (true, word Byte.x00)
       = ((true, returnData), (true, word Byte.x00))
       /\ (returnData = [] /\ false = true
           \/ returnData <> [] /\ abi_decode_bool returnData = Some false).
Proof.
  apply (wrapCall_returns_only_after_successful_call (Evm := one_token) 1 [] 5000
           (true, word Byte.x00) false (true, word Byte.x00)).
  reflexivity.
Defined.

Lemma erc20_calls_need_a_contract_witness :
  transfer (Evm := one_token) 0 7 100 (true, [])
  = Reverted (Evm := one_token) (ErrorString "LibERC20: NO_CODE").
Proof.
  apply (proj1 (proj2 (proj2 (erc20_calls_need_a_contract (Evm := one_token) 0 (true, [])
                                eq_refl)))).
Defined.

End LibERC20Examples.

(** * Properties of the channel state machine *)

Section ChannelProperties.
Import Channel.
Context `{Ext : Collaborators}.

Lemma fresh_in_step address : store_in_step (fresh address).
Proof.
  split.
  - intros i u v Hu. cbn in Hu. discriminate Hu.
  - intros u Hu. cbn in Hu. discriminate Hu.
Qed.

Lemma consecutive_nonces_snoc updates u :
  consecutive_nonces updates ->
  (forall prev, last updates = Some prev -> nonce u = nonce prev + 1) ->
  consecutive_nonces (updates ++ [u]).
Proof.
  intros Hhist Hlast i a b Ha Hb.
  destruct (decide (S i < length updates)%nat) as [Hlt|Hge].
  - rewrite lookup_app_l in Ha by lia.
    rewrite lookup_app_l in Hb by lia.
    now apply (Hhist i).
  - destruct (decide (S i = length updates)) as [Heq|Hne].
    + rewrite lookup_app_l in Ha by lia.
      rewrite lookup_app_r in Hb by lia.
      replace (S i - length updates)%nat with 0%nat in Hb by lia.
      cbn in Hb. injection Hb as <-.
      apply Hlast. rewrite last_lookup.
      replace (Nat.pred (length updates)) with i by lia. exact Ha.
    + apply lookup_lt_Some in Hb. rewrite length_app in Hb. cbn in Hb. lia.
Qed.

Lemma applied_persist st u store :
  applied (persist st u store) = (applied store ++ [u])%list.
Proof. unfold applied, persist. cbn. now rewrite map_app. Qed.

Lemma persist_in_step st u store :
  store_in_step store ->
  nonce u = channelNonce (current store) + 1 ->
  store_in_step (persist st u store).
Proof.
  intros [Hhist Hlast] Hnonce. split; rewrite applied_persist.
  - apply consecutive_nonces_snoc; [exact Hhist|].
    intros prev Hprev. rewrite (Hlast prev Hprev). exact Hnonce.
  - intros v Hv. rewrite last_snoc in Hv. now injection Hv as <-.
Qed.

Lemma receiveUpdate_in_step u store :
  store_in_step store -> store_in_step (snd (receiveUpdate u store)).
Proof.
  intros Hok. unfold receiveUpdate.
  destruct (replayed u store); [exact Hok|].
  destruct (verifySignature _ _ _ _ _); cbn [negb]; [|exact Hok].
  destruct (nonce u =? channelNonce (current store) + 1) eqn:Hnonce; cbn [negb];
    [|exact Hok].
  destruct (bool_decide _); cbn [negb]; [|exact Hok].
  destruct (transition (current store) (details u)) as [st'|e]; [|exact Hok].
  destruct (String.eqb _ _); cbn [negb]; [|exact Hok].
  cbn [snd]. apply persist_in_step; [exact Hok | cbn; lia].
Qed.

(** A proposal targets the nonce after the current one. *)
Lemma proposeUpdate_targets_next_nonce me d lastKnownNonce store pending :
  proposeUpdate me d lastKnownNonce store = Result.ok pending ->
  nonce pending = channelNonce (current store) + 1.
Proof.
  unfold proposeUpdate.
  destruct (channelNonce (current store) <? lastKnownNonce); [discriminate|].
  destruct (transition (current store) d); [|discriminate].
  now intros [= <-].
Qed.

Lemma applyCounterSignedUpdate_in_step pending reply store :
  store_in_step store ->
  nonce pending = channelNonce (current store) + 1 ->
  store_in_step (snd (applyCounterSignedUpdate pending reply store)).
Proof.
  intros Hok Hnonce. unfold applyCounterSignedUpdate.
  destruct reply as [signature|]; [|exact Hok].
  destruct (verifySignature _ _ _ _ _); cbn [negb]; [|exact Hok].
  destruct (transition (current store) (details pending)) as [st'|e]; [|exact Hok].
  cbn [snd]. apply persist_in_step; [exact Hok | exact Hnonce].
Qed.

Lemma step_in_step a store :
  store_in_step store -> store_in_step (step store a).
Proof.
  intros Hok. destruct a as [u | me d lastKnownNonce reply]; cbn.
  - now apply receiveUpdate_in_step.
  - destruct (proposeUpdate me d lastKnownNonce store) as [pending|e] eqn:Hpending;
      [|exact Hok].
    apply applyCounterSignedUpdate_in_step; [exact Hok|].
    exact (proposeUpdate_targets_next_nonce _ _ _ _ _ Hpending).
Qed.

Lemma run_in_step actions store :
  store_in_step store -> store_in_step (run actions store).
Proof.
  revert store. induction actions as [|a actions IH]; intros store Hok; [exact Hok|].
  cbn. apply IH. now apply step_in_step.
Qed.

(** C6: on every channel, whatever updates are received or proposed, any
    two updates applied one after the other carry nonces that differ by
    exactly one. *)
Theorem applied_nonces_step_by_one address actions i u v :
  applied (run actions (fresh address)) !! i = Some u ->
  applied (run actions (fresh address)) !! S i = Some v ->
  nonce v = nonce u + 1.
Proof.
  intros Hu Hv.
  destruct (run_in_step actions (fresh address) (fresh_in_step address)) as [Hhist _].
  exact (Hhist i u v Hu Hv).
Qed.

End ChannelProperties.

(** ** The channel state machine on a run of updates *)

Section ChannelExamples.
Import Channel.
#[local] Existing Instance trusting.

Example eventful_applied :
  applied (run eventful (fresh "0xchannel"))
  = [counter_signed setup_update "signed"; counter_signed deposit_update "signed";
     created_update].
Proof. vm_compute. reflexivity. Qed.

Example eventful_nonce :
  channelNonce (current (run eventful (fresh "0xchannel"))) = 3.
Proof. vm_compute. reflexivity. Qed.

Example future_update_rejected :
  fst (receiveUpdate (proposal 7 (DepositDetails "X" Bob 5) "0x0") (fresh "0xchannel"))
  = Result.fail NonceMismatchError.
Proof. vm_compute. reflexivity. Qed.

(** A replay answers with the state the update resulted in the first
    time, and leaves the store alone. *)
Example replay_is_a_no_op :
  snd (receiveUpdate setup_update (run eventful (fresh "0xchannel")))
  = run eventful (fresh "0xchannel")
  /\ (channelNonce <$> replayed setup_update (run eventful (fresh "0xchannel"))) = Some 1.
Proof. vm_compute. split; reflexivity. Qed.

Lemma applied_nonces_step_by_one_witness :
  applied (run eventful (fresh "0xchannel")) !! 1%nat
  = Some (counter_signed deposit_update "signed")
  /\ applied (run eventful (fresh "0xchannel")) !! 2%nat = Some created_update
  /\ nonce created_update = nonce (counter_signed deposit_update "signed") + 1.
Proof.
  split; [vm_compute; reflexivity|].
  split; [vm_compute; reflexivity|].
  apply (applied_nonces_step_by_one (Ext := trusting) "0xchannel" eventful 1
           (counter_signed deposit_update "signed") created_update);
    vm_compute; reflexivity.
Defined.

End ChannelExamples.

(** * Properties of the forwarding engine *)

Section RouterProperties.
Import Router.












(** The invariant is exact: each of its states is the state of a payment
    after some run. *)
Lemma accounted_states_are_reached p :
  accounted p = true -> exists events, run events !! "R" = Some p.
Proof.
  intros Hok.
  destruct p as [[] [] [] []]; vm_compute in Hok; try discriminate Hok;
    first
      [ exists [TransferCreated "R" true LetExpire]; vm_compute; reflexivity
      | exists [TransferCreated "R" true LetExpire; TransferResolved "R" true];
        vm_compute; reflexivity
      | exists [TransferCreated "R" true LetExpire; TransferExpired "R" Outbound true];
        vm_compute; reflexivity
      | exists [TransferCreated "R" false LetExpire]; vm_compute; reflexivity
      | exists [TransferCreated "R" false CancelExplicitly]; vm_compute; reflexivity
      | exists failed_mirror; vm_compute; reflexivity
      | exists [TransferCreated "R" true LetExpire; TransferExpired "R" Outbound false];
        vm_compute; reflexivity
      | exists [TransferCreated "R" true LetExpire; TransferExpired "R" Inbound false];
        vm_compute; reflexivity
      | exists resolved_after_expiry; vm_compute; reflexivity ].
Qed.



End RouterProperties.

(** ** The forwarding engine on a mirrored resolve that fails *)

Section RouterExamples.
Import Router.


(** Retried with success, both legs end resolved. *)
Example failed_mirror_retried :
  run (failed_mirror ++ [Retry "R" true]) !! "R"
  = Some (mkPayment Resolved Resolved false false).
Proof. vm_compute. reflexivity. Qed.

(** Left to expire, the loss is booked against the router's collateral. *)
Example failed_mirror_expired :
  run (failed_mirror ++ [TransferExpired "R" Inbound false]) !! "R"
  = Some (mkPayment Cancelled Resolved true true).
Proof. vm_compute. reflexivity. Qed.

(** Paid out after the inbound leg expired: absorbed at once. *)
Example resolved_after_expiry_state :
  run resolved_after_expiry !! "R" = Some (mkPayment Cancelled Resolved true true).
Proof. vm_compute. reflexivity. Qed.

(** The outbound leg expires and the inbound one is cancelled in turn
    (section 8, second scenario). *)
Example outbound_expired :
  run [TransferCreated "R" true LetExpire; TransferExpired "R" Outbound true] !! "R"
  = Some (mkPayment Cancelled Cancelled false false).
Proof. vm_compute. reflexivity. Qed.



End RouterExamples.

(** * Properties of the event surface *)

Section EngineEventsProperties.
Import EngineEvents.

Lemma observe_finds_first event filter deadline events :
  fst (observe event filter deadline events)
  = find (matching event filter) (emitted_by deadline events).
Proof.
  induction events as [|e rest IH]; cbn; [reflexivity|].
  destruct (deadline <? emittedAt e); cbn; [reflexivity|].
  destruct (matching event filter e); cbn; [reflexivity | exact IH].
Qed.

Lemma observe_in_time event filter deadline events e :
  fst (observe event filter deadline events) = Some e -> emittedAt e <= deadline.
Proof.
  induction events as [|x rest IH]; cbn; [discriminate|].
  destruct (deadline <? emittedAt x) eqn:Hlate; cbn; [discriminate|].
  destruct (matching event filter x); cbn; [|exact IH].
  intros [= <-]. lia.
Qed.

Variable Rpc : Type.
Variable construct : BrowserNode.ChannelRpcMethod -> JsValue -> Rpc.
Variable identifier : JsValue.
Variable answer : Rpc -> Clocked -> Settled JsValue * Clocked.

(** C7: on an engine with the specified event surface, [waitFor] always
    resolves and never rejects: with the payload of the first matching
    event emitted by the deadline if there is one, with [undefined]
    otherwise; the clock then stands no later than the timeout allows,
    and no request was sent. *)
Theorem waitFor_resolves_within_timeout event timeout filter
  (w : BrowserNode.World (Engine := engine_with_events Rpc construct identifier answer)) :
  let deadline := now (BrowserNode.engine w) + Z.max 0 timeout in
  fst (BrowserNode.waitFor event timeout filter w)
  = Resolved (observed_value
                (find (matching event filter)
                   (emitted_by deadline (upcoming (BrowserNode.engine w)))))
  /\ now (BrowserNode.engine (snd (BrowserNode.waitFor event timeout filter w))) <= deadline
  /\ BrowserNode.sent (snd (BrowserNode.waitFor event timeout filter w))
     = BrowserNode.sent w.
Proof.
  intros deadline. unfold BrowserNode.waitFor. cbn.
  unfold waitFor. fold deadline.
  rewrite <- (observe_finds_first event filter deadline).
  pose proof (observe_in_time event filter deadline (upcoming (BrowserNode.engine w)))
    as Htime.
  destruct (observe event filter deadline (upcoming (BrowserNode.engine w)))
    as [[e|] rest]; cbn in *.
  - specialize (Htime e eq_refl). repeat split. lia.
  - repeat split. lia.
Qed.

End EngineEventsProperties.

(** ** The event surface on a short run of events *)

Section EngineEventsExamples.
Import EngineEvents.

Example waitFor_filtered :
  fst (waitFor "CONDITIONAL_TRANSFER_CREATED" 50 (Some (on_channel "0xA")) busy)
  = Resolved (JObj [("channelAddress", JStr "0xA")]).
Proof. reflexivity. Qed.

Example waitFor_times_out :
  waitFor "CONDITIONAL_TRANSFER_CREATED" 25 (Some (on_channel "0xA")) busy
  = (Resolved JUndefined,
     {| now := 1025;
        upcoming := [mkEmitted 1030 "CONDITIONAL_TRANSFER_CREATED"
                       (JObj [("channelAddress", JStr "0xA")])] |}).
Proof. reflexivity. Qed.

End EngineEventsExamples.

(** * Properties of the launch script *)

Section StartRouterProperties.
Import StartRouter.
Variable printed : JsValue -> string.

Lemma lookup_jq_add (left right : gmap string JsValue) key :
  jq_add left right !! key
  = match right !! key with
    | Some v => Some v
    | None => left !! key
    end.
Proof.
  unfold jq_add. rewrite lookup_union.
  destruct (right !! key), (left !! key); reflexivity.
Qed.

Lemma config_lookup files key : config files !! key = first_defined key files.
Proof.
  unfold config, router_config, node_config, first_defined.
  rewrite !lookup_jq_add.
  destruct (copied_if_missing (router_default files) (router_custom files) !! key);
    [reflexivity|].
  destruct (router_default files !! key); [reflexivity|].
  destruct (copied_if_missing (node_default files) (node_custom files) !! key);
    reflexivity.
Qed.

Lemma launch_mnemonic files chain_addresses env :
  (mnemonic_secret (launch printed files chain_addresses env),
   eth_mnemonic (launch printed files chain_addresses env),
   eth_mnemonic_file (launch printed files chain_addresses env))
  = mnemonic_settings (getConfig printed (config files) "mnemonic") env.
Proof.
  unfold launch.
  destruct (mnemonic_settings _ env) as [[? ?] ?].
  destruct (database_settings _ env) as [[? ?] ?]. reflexivity.
Qed.

Lemma launch_database files chain_addresses env :
  (db_secret (launch printed files chain_addresses env),
   pg_password (launch printed files chain_addresses env),
   pg_password_file (launch printed files chain_addresses env))
  = database_settings (getConfig printed (config files) "production") env.
Proof.
  unfold launch.
  destruct (mnemonic_settings _ env) as [[? ?] ?].
  destruct (database_settings _ env) as [[? ?] ?]. reflexivity.
Qed.

Lemma launch_production files chain_addresses env :
  production (launch printed files chain_addresses env)
  = getConfig printed (config files) "production".
Proof.
  unfold launch.
  destruct (mnemonic_settings _ env) as [[? ?] ?].
  destruct (database_settings _ env) as [[? ?] ?]. reflexivity.
Qed.

Lemma launch_deployed_config files chain_addresses env :
  deployed_config (launch printed files chain_addresses env)
  = if use_local_evms env
    then jq_add (config files) {[ "chainAddresses" := chain_addresses ]}
    else config files.
Proof.
  unfold launch.
  destruct (mnemonic_settings _ env) as [[? ?] ?].
  destruct (database_settings _ env) as [[? ?] ?]. reflexivity.
Qed.

(** A key is read from the most specific file that has it:
    [router.config.json], then the router's defaults, then
    [node.config.json], then the node's defaults; [getConfig] prints that
    value.  The configuration handed to the services is the same, except
    that with local EVMs [chainAddresses] is always the local chain's. *)
Theorem config_precedence files chain_addresses env key :
  config files !! key = first_defined key files
  /\ getConfig printed (config files) key
     = (if String.eqb (printed (default JNull (first_defined key files))) "null"
        then ""
        else printed (default JNull (first_defined key files)))
  /\ deployed_config (launch printed files chain_addresses env) !! key
     = (if use_local_evms env && String.eqb "chainAddresses" key
        then Some chain_addresses
        else first_defined key files).
Proof.
  split; [apply config_lookup|]. split.
  - unfold getConfig, jq_get. now rewrite config_lookup.
  - rewrite launch_deployed_config.
    destruct (use_local_evms env); cbn [andb]; [|apply config_lookup].
    rewrite lookup_jq_add.
    destruct (String.eqb_spec "chainAddresses" key) as [<-|Hne].
    + now rewrite lookup_singleton_eq.
    + rewrite lookup_singleton_ne by exact Hne. apply config_lookup.
Qed.

Lemma secret_name_is_set name suffix : name ++ "_" ++ suffix <> "".
Proof. destruct name; discriminate. Qed.

Lemma eqb_empty_false s : String.eqb s "" = false -> s <> "".
Proof. intros H ->. discriminate H. Qed.

Lemma mnemonic_file_needs_secret files chain_addresses env :
  eth_mnemonic_file (launch printed files chain_addresses env) <> "" ->
  mnemonic_secret (launch printed files chain_addresses env) <> "".
Proof.
  pose proof (launch_mnemonic files chain_addresses env) as Hlaunch.
  set (l := launch printed files chain_addresses env) in *.
  unfold mnemonic_settings in Hlaunch.
  destruct (use_local_evms env);
    [|destruct (negb (String.eqb (getConfig printed (config files) "mnemonic") ""))];
    injection Hlaunch as Hsecret Heth Hfile; rewrite Hsecret, Hfile; intros Hset;
    try now contradict Hset.
  apply secret_name_is_set.
Qed.

Lemma launch_mnemonic_channels files chain_addresses env :
  (eth_mnemonic (launch printed files chain_addresses env) = ""
   <-> eth_mnemonic_file (launch printed files chain_addresses env) <> "")
  /\ (mnemonic_secret (launch printed files chain_addresses env) <> ""
      <-> eth_mnemonic_file (launch printed files chain_addresses env) <> "")
  /\ (eth_mnemonic_file (launch printed files chain_addresses env) <> "" ->
      eth_mnemonic_file (launch printed files chain_addresses env)
      = "/run/secrets/" ++ mnemonic_secret (launch printed files chain_addresses env))
  /\ (getConfig printed (config files) "mnemonic" <> "" ->
      eth_mnemonic (launch printed files chain_addresses env)
      = getConfig printed (config files) "mnemonic"
      /\ mnemonic_secret (launch printed files chain_addresses env) = "")
  /\ (use_local_evms env = false ->
      eth_mnemonic (launch printed files chain_addresses env)
      = getConfig printed (config files) "mnemonic")
  /\ (use_local_evms env = true ->
      eth_mnemonic (launch printed files chain_addresses env)
      = or_default (getConfig printed (config files) "mnemonic")
          "candy maple cake sugar pudding cream honey rich smooth crumble sweet treat"
      /\ eth_mnemonic_file (launch printed files chain_addresses env) = "").
Proof.
  pose proof (launch_mnemonic files chain_addresses env) as Hlaunch.
  set (l := launch printed files chain_addresses env) in *.
  set (mnemonic := getConfig printed (config files) "mnemonic") in *.
  unfold mnemonic_settings in Hlaunch.
  destruct (use_local_evms env).
  - injection Hlaunch as -> Heth ->. rewrite Heth. unfold or_default.
    destruct (String.eqb_spec mnemonic "") as [Hempty|Hset].
    + repeat split; try discriminate; try congruence; intros H; now contradict H.
    + repeat split; try discriminate; try congruence; intros H; now contradict H.
  - destruct (String.eqb_spec mnemonic "") as [Hempty|Hset]; cbn [negb] in Hlaunch;
      injection Hlaunch as Hsecret Heth Hfile; rewrite Hsecret, Heth, Hfile.
    + repeat split; try discriminate; try congruence; intros _;
        try apply secret_name_is_set; try reflexivity.
    + repeat split; try discriminate; try congruence; intros H; now contradict H.
Qed.

(** On a run of the script, the mnemonic reaches the node by exactly one
    of [VECTOR_MNEMONIC] and [VECTOR_MNEMONIC_FILE]; the file is the one of
    the mnemonic secret, which is set exactly when the file is; a
    configured mnemonic is always the one used, with no secret; on chain
    providers other than the default ones the mnemonic in the environment
    is the configured one, so that the well-known test mnemonic is used
    only on the default providers, where no file is. *)
Theorem mnemonic_by_one_channel compact files chain_addresses env :
  (eth_mnemonic (start_router printed compact files chain_addresses env) = ""
   <-> eth_mnemonic_file (start_router printed compact files chain_addresses env) <> "")
  /\ (mnemonic_secret (start_router printed compact files chain_addresses env) <> ""
      <-> eth_mnemonic_file (start_router printed compact files chain_addresses env) <> "")
  /\ (eth_mnemonic_file (start_router printed compact files chain_addresses env) <> "" ->
      eth_mnemonic_file (start_router printed compact files chain_addresses env)
      = "/run/secrets/"
        ++ mnemonic_secret (start_router printed compact files chain_addresses env))
  /\ (getConfig printed (config files) "mnemonic" <> "" ->
      eth_mnemonic (start_router printed compact files chain_addresses env)
      = getConfig printed (config files) "mnemonic"
      /\ mnemonic_secret (start_router printed compact files chain_addresses env) = "")
  /\ (chain_providers compact files <> default_providers compact files ->
      eth_mnemonic (start_router printed compact files chain_addresses env)
      = getConfig printed (config files) "mnemonic")
  /\ (chain_providers compact files = default_providers compact files ->
      eth_mnemonic (start_router printed compact files chain_addresses env)
      = or_default (getConfig printed (config files) "mnemonic")
          "candy maple cake sugar pudding cream honey rich smooth crumble sweet treat"
      /\ eth_mnemonic_file (start_router printed compact files chain_addresses env) = "").
Proof.
  unfold start_router.
  destruct (launch_mnemonic_channels files chain_addresses
              {| project := project env; branch := branch env;
                 github_ref := github_ref env; package_version := package_version env;
                 commit := commit env; use_local_evms := local_evms compact files |})
    as (Hone & Hsecret & Hfile & Hconfigured & Hremote & Hlocal).
  cbn [use_local_evms] in Hremote, Hlocal. unfold local_evms in Hremote, Hlocal.
  repeat (split; [assumption|]). split.
  - intros Hother. apply Hremote. now apply String.eqb_neq.
  - intros Hsame. apply Hlocal. now apply String.eqb_eq.
Qed.

Lemma database_settings_cases files chain_addresses env :
  (production (launch printed files chain_addresses env) = "true"
   /\ pg_password (launch printed files chain_addresses env) = ""
   /\ db_secret (launch printed files chain_addresses env) <> ""
   /\ pg_password_file (launch printed files chain_addresses env)
      = "/run/secrets/" ++ db_secret (launch printed files chain_addresses env))
  \/ (production (launch printed files chain_addresses env) <> "true"
      /\ pg_password (launch printed files chain_addresses env) = project env
      /\ db_secret (launch printed files chain_addresses env) = ""
      /\ pg_password_file (launch printed files chain_addresses env) = "").
Proof.
  pose proof (launch_database files chain_addresses env) as Hlaunch.
  rewrite launch_production.
  set (l := launch printed files chain_addresses env) in *.
  set (mode := getConfig printed (config files) "production") in *.
  unfold database_settings in Hlaunch.
  destruct (String.eqb_spec mode "true") as [Hprod|Hdev];
    injection Hlaunch as Hsecret Hpassword Hfile.
  - left. rewrite Hsecret, Hpassword, Hfile.
    repeat split; [exact Hprod | apply secret_name_is_set].
  - right. auto.
Qed.

(** The database password is a secret file exactly in production: then
    [pg_password] is empty, the file is the one of the database secret, and
    that secret is set; outside production no secret is used and the
    password is the project's name. *)
Theorem database_password_by_mode files chain_addresses env :
  (production (launch printed files chain_addresses env) = "true" ->
   pg_password (launch printed files chain_addresses env) = ""
   /\ db_secret (launch printed files chain_addresses env) <> ""
   /\ pg_password_file (launch printed files chain_addresses env)
      = "/run/secrets/" ++ db_secret (launch printed files chain_addresses env))
  /\ (production (launch printed files chain_addresses env) <> "true" ->
      pg_password (launch printed files chain_addresses env) = project env
      /\ db_secret (launch printed files chain_addresses env) = ""
      /\ pg_password_file (launch printed files chain_addresses env) = "")
  /\ (pg_password_file (launch printed files chain_addresses env) <> ""
      <-> db_secret (launch printed files chain_addresses env) <> "").
Proof.
  destruct (database_settings_cases files chain_addresses env)
    as [(Hprod & Hpassword & Hsecret & Hfile) | (Hdev & Hpassword & Hsecret & Hfile)].
  - split; [auto|]. split; [intros Hnot; now contradict Hnot|].
    rewrite Hfile. split; [auto | discriminate].
  - split; [intros Hmode; now contradict Hdev|]. split; [auto|].
    rewrite Hfile, Hsecret. tauto.
Qed.

Lemma append_cancel prefix a b : prefix ++ a = prefix ++ b -> a = b.
Proof.
  induction prefix as [|c prefix IH]; cbn; [auto|].
  intros [= H]. now apply IH.
Qed.

(** The node and the router run from the same image exactly outside
    production, where both use the project's builder image at version
    "latest"; in production each has an image of its own. *)
Theorem one_image_outside_production production env :
  (node_image_name production env = router_image_name production env
   <-> production <> "true")
  /\ (production <> "true" ->
      node_image_name production env = project env ++ "_builder:latest").
Proof.
  unfold node_image_name, router_image_name, version.
  destruct (String.eqb_spec production "true") as [Hprod|Hdev].
  - split; [|intros H; now contradict H]. split.
    + intros Hsame. apply append_cancel in Hsame. discriminate Hsame.
    + intros H. now contradict H.
  - split; [|reflexivity]. split; [intros _; exact Hdev | reflexivity].
Qed.

Lemma last_component_after_slash prefix acc s :
  last_component acc (prefix ++ "/" ++ s) = last_component "" s.
Proof.
  revert acc. induction prefix as [|c prefix IH]; intros acc; [reflexivity|].
  change (String c prefix ++ "/" ++ s) with (String c (prefix ++ "/" ++ s)).
  cbn [last_component].
  destruct (String.eqb (String c "") "/"); apply IH.
Qed.

(** In production, a [GITHUB_REF] whose last path component is [prod]
    selects the release version of [package.json], whatever branch is
    checked out. *)
Theorem release_version_on_prod_ref env prefix :
  github_ref env = prefix ++ "/prod" ->
  version "true" env = package_version env.
Proof.
  intros Href. unfold version, after_last_slash. cbn [String.eqb].
  rewrite Href.
  change (prefix ++ "/prod") with (prefix ++ "/" ++ "prod").
  rewrite last_component_after_slash. cbn.
  now rewrite orb_true_r.
Qed.

Lemma if_set_elem name x : x ∈ if_set name -> x = name /\ name <> "".
Proof.
  unfold if_set. destruct (String.eqb_spec name "") as [Hempty|Hset]; cbn [negb].
  - intros H. now apply not_elem_of_nil in H.
  - intros H. apply list_elem_of_singleton in H. auto.
Qed.

Lemma elem_if_set name : name <> "" -> name ∈ if_set name.
Proof.
  intros Hset. unfold if_set.
  destruct (String.eqb_spec name "") as [Hempty|_]; [now contradict Hset|].
  cbn. apply list_elem_of_singleton. reflexivity.
Qed.

(** Every secret a service lists is declared for the stack, and the secret
    file each service is pointed at belongs to a secret that service
    lists: the mnemonic file for the node, the password file for the node,
    the router and the database. *)
Theorem listed_secrets_are_declared files chain_addresses env :
  (forall name,
      name ∈ node_secrets (launch printed files chain_addresses env)
      \/ name ∈ router_secrets (launch printed files chain_addresses env)
      \/ name ∈ database_secrets (launch printed files chain_addresses env) ->
      name ∈ stack_secrets (launch printed files chain_addresses env))
  /\ (eth_mnemonic_file (launch printed files chain_addresses env) <> "" ->
      mnemonic_secret (launch printed files chain_addresses env)
      ∈ node_secrets (launch printed files chain_addresses env))
  /\ (pg_password_file (launch printed files chain_addresses env) <> "" ->
      db_secret (launch printed files chain_addresses env)
      ∈ node_secrets (launch printed files chain_addresses env)
      /\ db_secret (launch printed files chain_addresses env)
         ∈ router_secrets (launch printed files chain_addresses env)
      /\ db_secret (launch printed files chain_addresses env)
         ∈ database_secrets (launch printed files chain_addresses env)).
Proof.
  pose proof (mnemonic_file_needs_secret files chain_addresses env) as Hmnemonic.
  pose proof (database_settings_cases files chain_addresses env) as Hdatabase.
  set (l := launch printed files chain_addresses env) in *.
  unfold node_secrets, router_secrets, database_secrets, stack_secrets.
  split; [|split].
  - intros name [Hnode | [Hrouter | Hlisted]].
    + exact Hnode.
    + apply elem_of_app. now left.
    + apply elem_of_app. left.
      destruct Hdatabase as [(Hprod & _ & Hsecret & _) | (Hdev & _)].
      * rewrite Hprod in Hlisted. cbn in Hlisted.
        apply list_elem_of_singleton in Hlisted. subst name. now apply elem_if_set.
      * destruct (String.eqb_spec (production l) "true") as [Hmode|_];
          [now contradict Hdev | now apply not_elem_of_nil in Hlisted].
  - intros Hset. apply elem_of_app. right. apply elem_if_set. now apply Hmnemonic.
  - intros Hset.
    destruct Hdatabase as [(Hprod & _ & Hsecret & _) | (_ & _ & _ & Hfile)];
      [|now contradict Hset].
    split; [apply elem_of_app; left; now apply elem_if_set|].
    split; [now apply elem_if_set|].
    rewrite Hprod. cbn. apply list_elem_of_singleton. reflexivity.
Qed.

End StartRouterProperties.

(** ** The launch script on a production checkout *)

Section StartRouterExamples.
Import StartRouter.

Example shipped_launch :
  let l := start_router quoted_less spaceless shipped_files (JObj []) on_a_feature_branch in
  (production l, launch_version l, port l)
  = ("true", "01234567", "8009")
  /\ (mnemonic_secret l, eth_mnemonic l, eth_mnemonic_file l)
     = ("vector_router_mnemonic", "", "/run/secrets/vector_router_mnemonic")
  /\ (db_secret l, pg_password l, pg_password_file l)
     = ("vector_router_database", "", "/run/secrets/vector_router_database")
  /\ (node_image l, router_image l) = ("vector_node:01234567", "vector_router:01234567")
  /\ stack_secrets l = ["vector_router_database"; "vector_router_mnemonic"].
Proof. vm_compute. repeat split. Qed.

(** Without [router.config.json] the defaults decide: a development
    launch on the local chain, with the test mnemonic and the password in
    the environment, and no secret. *)
Example default_launch :
  let l := start_router quoted_less spaceless
             (mkConfigFiles (router_default shipped_files) None
                (node_default shipped_files) None)
             (JObj [("1337", JObj [])]) on_a_feature_branch in
  (production l, launch_version l, node_image l, router_image l)
  = ("false", "latest", "vector_builder:latest", "vector_builder:latest")
  /\ (mnemonic_secret l, eth_mnemonic l, eth_mnemonic_file l)
     = ("", "candy maple cake sugar pudding cream honey rich smooth crumble sweet treat", "")
  /\ (db_secret l, pg_password l, pg_password_file l) = ("", "vector", "")
  /\ stack_secrets l = []
  /\ deployed_config l !! "chainAddresses" = Some (JObj [("1337", JObj [])]).
Proof. vm_compute. repeat split. Qed.

(** The chain providers as the script compares them. *)
Example providers_compared :
  chain_providers spaceless shipped_files
  = "{" ++ json_string "1" ++ ":" ++ json_string "https://mainnet.example/rpc" ++ "}"
  /\ default_providers spaceless shipped_files
     = "{" ++ json_string "1337" ++ ":" ++ json_string "http://evm_1337:8545" ++ "}"
  /\ local_evms spaceless shipped_files = false.
Proof. vm_compute. repeat split. Qed.

Example jq_print_of_a_configuration :
  jq_print "" (JObj [("port", JNum 8009); ("tags", JArr [JStr "a"; JNull]); ("none", JObj [])])
  = "{" ++ char 10
    ++ "  " ++ json_string "port" ++ ": 8009," ++ char 10
    ++ "  " ++ json_string "tags" ++ ": [" ++ char 10
    ++ "    " ++ json_string "a" ++ "," ++ char 10
    ++ "    null" ++ char 10
    ++ "  ]," ++ char 10
    ++ "  " ++ json_string "none" ++ ": {}" ++ char 10
    ++ "}".
Proof. vm_compute. reflexivity. Qed.

Example after_last_slash_of_a_ref :
  after_last_slash "refs/heads/prod" = "prod"
  /\ after_last_slash "prod" = "prod"
  /\ after_last_slash "refs/heads/" = "".
Proof. repeat split. Qed.

Lemma release_version_on_prod_ref_witness :
  version "true"
    (mkSurroundings "vector" "HEAD" "refs/heads/prod" "0.0.1" "0123456789abcdef" false)
  = "0.0.1".
Proof.
  apply (release_version_on_prod_ref
           (mkSurroundings "vector" "HEAD" "refs/heads/prod" "0.0.1" "0123456789abcdef" false)
           "refs/heads").
  reflexivity.
Defined.

Lemma mnemonic_by_one_channel_witness :
  eth_mnemonic_file
    (start_router quoted_less spaceless shipped_files (JObj []) on_a_feature_branch)
  = "/run/secrets/"
    ++ mnemonic_secret
         (start_router quoted_less spaceless shipped_files (JObj []) on_a_feature_branch).
Proof.
  apply (proj1 (proj2 (proj2 (mnemonic_by_one_channel quoted_less spaceless shipped_files
                                (JObj []) on_a_feature_branch)))).
  vm_compute. discriminate.
Defined.

Lemma database_password_by_mode_witness :
  pg_password (launch quoted_less shipped_files (JObj []) on_a_feature_branch) = ""
  /\ db_secret (launch quoted_less shipped_files (JObj []) on_a_feature_branch) <> ""
  /\ pg_password_file (launch quoted_less shipped_files (JObj []) on_a_feature_branch)
     = "/run/secrets/"
       ++ db_secret (launch quoted_less shipped_files (JObj []) on_a_feature_branch).
Proof.
  apply (proj1 (database_password_by_mode quoted_less shipped_files (JObj [])
                  on_a_feature_branch)).
  vm_compute. reflexivity.
Defined.

Lemma listed_secrets_are_declared_witness :
  "vector_router_database"
  ∈ stack_secrets (launch quoted_less shipped_files (JObj []) on_a_feature_branch).
Proof.
  apply (proj1 (listed_secrets_are_declared quoted_less shipped_files (JObj [])
                  on_a_feature_branch)).
  right. right. vm_compute. apply list_elem_of_singleton. reflexivity.
Defined.

Lemma one_image_outside_production_witness :
  node_image_name "false" on_a_feature_branch
  = router_image_name "false" on_a_feature_branch.
Proof.
  apply (proj1 (one_image_outside_production "false" on_a_feature_branch)).
  discriminate.
Defined.

End StartRouterExamples.
